(** * ISS-Tracker: the ground-track pipeline of [ISS-Tracker.py]

    A shallow embedding of the script's four functions ([_pull_tle],
    [_get_sat_posn], [_dms_to_dd], [update_graph]) together with the parts
    of the Python runtime they lean on: [range], list slices, [str.split],
    [int()], and the [datetime] / [timedelta] arithmetic of the standard
    library.

    Numbers.  Integers are [Z].  A Python float is the rational number it
    holds; the float arithmetic of the script (the conversion between
    degrees, minutes, seconds and decimal degrees) is carried out in the
    module [Float64], which rounds the result of every operation to the
    nearest binary64 value.  The formula of [_dms_to_dd] is also given over
    exact rationals, for the statements that are about the formula rather
    than about rounding.

    Effects.  The script talks to the outside world (configuration file,
    HTTP session, clock, the Skyfield satellite model, a pickle file).  These
    collaborators are gathered in the record [Env]; the script's functions
    are written in a small exception-and-trace monad [M] that records the
    calls made to the satellite model. *)

From Stdlib Require Import ZArith QArith Qround Qabs Qpower List Sorted String Ascii Bool Lia Lqa.
From Stdlib Require PrimFloat FloatOps SpecFloat.
Import ListNotations.

Open Scope Z_scope.

(* ================================================================== *)
(** * Python built-ins *)
(* ================================================================== *)

Module Py.

(** [range(lo, hi)] with the default step 1. *)
Definition range (lo hi : Z) : list Z :=
  map (fun i => lo + Z.of_nat i) (seq 0 (Z.to_nat (hi - lo))).

(** [l[a:b]] for non-negative indices: out-of-range bounds are clipped. *)
Definition slice {A : Type} (l : list A) (a b : nat) : list A :=
  firstn (b - a) (skipn a l).

(** [int(x)] on a float: truncation toward zero. *)
Definition int (x : Q) : Z := Z.quot (Qnum x) (Zpos (Qden x)).

(** ** Exceptions

    A Python exception is an instance of some class carrying an argument
    tuple.  The class is kept as its name, so that exceptions raised by the
    external libraries (whose classes are open-ended) fit the same type. *)

Inductive exn : Type := Raise (cls : string) (args : list string).

Definition exn_class (e : exn) : string := let 'Raise c _ := e in c.

Definition ValueError (msg : string) : exn := Raise "ValueError" [msg].
Definition OverflowError (msg : string) : exn := Raise "OverflowError" [msg].
Definition IndexError (msg : string) : exn := Raise "IndexError" [msg].

(** [l[i]] for a non-negative index. *)
Definition index {A : Type} (l : list A) (i : nat) : exn + A :=
  match nth_error l i with
  | Some x => inr x
  | None => inl (IndexError "list index out of range")
  end.

(** ** [str.split(text, '\r\n')]

    The text is scanned from the left; every occurrence of the two-character
    separator closes the current part.  [cur] holds the characters of the
    current part, most recent first. *)

Definition CR : ascii := ascii_of_nat 13.
Definition LF : ascii := ascii_of_nat 10.

Fixpoint rev_string (acc : string) (cur : list ascii) : string :=
  match cur with
  | [] => acc
  | c :: cur' => rev_string (String c acc) cur'
  end.

Fixpoint split_crlf_from (cur : list ascii) (s : string) : list string :=
  match s with
  | EmptyString => [rev_string EmptyString cur]
  | String c rest =>
      match rest with
      | String c2 rest2 =>
          if (Ascii.eqb c CR && Ascii.eqb c2 LF)%bool
          then rev_string EmptyString cur :: split_crlf_from [] rest2
          else split_crlf_from (c :: cur) rest
      | EmptyString => split_crlf_from (c :: cur) rest
      end
  end.

Definition split_crlf (s : string) : list string := split_crlf_from [] s.

(** Number of (non-overlapping) occurrences of the separator. *)
Fixpoint count_crlf (s : string) : nat :=
  match s with
  | EmptyString => 0
  | String c rest =>
      match rest with
      | String c2 rest2 =>
          if (Ascii.eqb c CR && Ascii.eqb c2 LF)%bool
          then S (count_crlf rest2)
          else count_crlf rest
      | EmptyString => count_crlf rest
      end
  end.

End Py.

Import Py.

(* ================================================================== *)
(** * The computation monad: exceptions and a call trace *)
(* ================================================================== *)

(** Skyfield's [Time] objects, as [ts.utc] builds them: the calendar day
    that was passed (by its proleptic Gregorian ordinal) and the seconds to
    count from the midnight that begins it.  The seconds may leave
    [0, 86400) when a field was passed outside its usual range.  Which
    instant this is depends on the leap seconds in force on that day; see
    [elapsed] below. *)
Record SkyTime : Type := mktime { time_day : Z; time_seconds : Q }.

Inductive event : Type :=
| Construct (line1 line2 : string)   (* EarthSatellite(line1, line2, ...) *)
| Propagate (t : SkyTime).           (* satellite.at(t) *)

Definition M (A : Type) : Type := list event -> (exn + A) * list event.

Definition ret {A : Type} (a : A) : M A := fun tr => (inr a, tr).
Definition raise {A : Type} (e : exn) : M A := fun tr => (inl e, tr).
Definition lift {A : Type} (r : exn + A) : M A := fun tr => (r, tr).
Definition emit (ev : event) : M unit := fun tr => (inr tt, tr ++ [ev]).

Definition bind {A B : Type} (c : M A) (k : A -> M B) : M B :=
  fun tr =>
    match c tr with
    | (inr a, tr') => k a tr'
    | (inl e, tr') => (inl e, tr')
    end.

Notation "x <- c ;; k" := (bind c (fun x => k))
  (at level 61, c at next level, right associativity).
Notation "c ;;; k" := (bind c (fun _ => k))
  (at level 61, right associativity).

(** A [for] loop over a list, threading the loop-carried state. *)
Fixpoint for_each {A S : Type} (l : list A) (body : A -> S -> M S) (s : S) : M S :=
  match l with
  | [] => ret s
  | x :: l' => s' <- body x s ;; for_each l' body s'
  end.

Definition run {A : Type} (c : M A) : (exn + A) * list event := c [].

Definition is_propagate (ev : event) : bool :=
  match ev with Propagate _ => true | Construct _ _ => false end.

(* ================================================================== *)
(** * Degrees, minutes, seconds *)
(* ================================================================== *)

(** An angle is its value in degrees. *)
Definition Angle : Type := Q.

(** Skyfield's [Angle.dms()] (the library is not part of the repository;
    this follows its [units] module): the absolute value is decomposed with
    two [divmod]s into whole degrees, whole minutes and seconds, and all
    three components are given the sign of the angle. *)
Definition sign (x : Q) : Q :=
  match Qnum x with
  | Z0 => 0
  | Zpos _ => 1
  | Zneg _ => -1
  end%Q.

Definition divmod (x y : Q) : Q * Q :=
  let q := inject_Z (Qfloor (x / y)) in (q, x - q * y)%Q.

Definition _sexagesimalize_to_float (value : Q) : Q * Q * Q * Q :=
  let sgn := sign value in
  let n := Qabs value in
  let '(minutes, seconds) := divmod (n * 3600) 60 in
  let '(units, minutes) := divmod minutes 60 in
  (sgn, units, minutes, seconds).

Definition dms (a : Angle) : Q * Q * Q :=
  let '(sgn, d, m, s) := _sexagesimalize_to_float a in
  (sgn * d, sgn * m, sgn * s)%Q.

(** [_dms_to_dd(dms)]: [dms[0] + dms[1]/60 + dms[2]/3600], the formula
    over exact values. *)
Definition _dms_to_dd (dms : Q * Q * Q) : Q :=
  let '(d, m, s) := dms in (d + m / 60 + s / 3600)%Q.

(** The same expression on IEEE 754 binary64 floats, the arithmetic Python
    runs it in; used to check concrete evaluations of the rational model. *)
Module Binary64.

Import PrimFloat.

Definition _dms_to_dd (dms : float * float * float) : float :=
  let '(d, m, s) := dms in (d + m / 60 + s / 3600)%float.

Definition triple_33_30_0 : float * float * float := (-33, 30, 0)%float.
Definition minus_32_5 : float := (-32.5)%float.
Definition minus_33_5 : float := (-33.5)%float.

(** Some binary64 values and the results of primitive operations on them,
    against which the rounding of [Float64] is checked. *)
Definition angle_a : float := 0x1.f44df8f47304p+6%float.   (* 125.076145 *)
Definition angle_b : float := 0x1.f44df8f47303fp+6%float.  (* 125.07614499999998 *)
Definition tenth : float := 0x1.999999999999ap-4%float.    (* 0.1 *)
Definition fifth : float := 0x1.999999999999ap-3%float.    (* 0.2 *)
Definition tiny : float := 0x0.012688b70e62bp-1022%float.  (* subnormal *)
Definition angle_a_seconds : float := (angle_a * 3600)%float.
Definition tenth_plus_fifth : float := (tenth + fifth)%float.
Definition one_third : float := (1 / 3)%float.
Definition tiny_seconds : float := (tiny * 3600)%float.
Definition tiny_quotient : float := (tiny / 3600)%float.
Definition tie_down : float := (9007199254740992 + 1)%float.
Definition tie_up : float := (9007199254740994 + 1)%float.

End Binary64.

(** ** Binary64 arithmetic on rationals

    A finite float is the rational it holds.  Every arithmetic operation
    returns the exact result rounded to the nearest binary64 value, ties to
    even, with gradual underflow; overflow to infinity is left out (the
    magnitudes met here stay far below it). *)
Module Float64.

(** [floor(log2 x)] for a positive rational. *)
Definition ilog2 (x : Q) : Z :=
  let k := Z.log2 (Qnum x) - Z.log2 (Zpos (Qden x)) in
  if Qle_bool (2 ^ k) x then k else k - 1.

(** The nearest integer, ties to even. *)
Definition rne (m : Q) : Z :=
  let f := Qfloor m in
  match Qcompare (m - inject_Z f) (1 # 2) with
  | Lt => f
  | Gt => f + 1
  | Eq => if Z.even f then f else f + 1
  end.

(** The exponent of the last place: 53 significant bits, and never below
    that of the subnormal numbers. *)
Definition exponent (x : Q) : Z := Z.max (ilog2 (Qabs x) - 52) (-1074).

Definition round (x : Q) : Q :=
  if Qeq_bool x 0 then 0%Q
  else (sign x * inject_Z (rne (Qabs x / 2 ^ exponent x)) * 2 ^ exponent x)%Q.

Definition mul (x y : Q) : Q := round (x * y).
Definition div (x y : Q) : Q := round (x / y).
Definition add (x y : Q) : Q := round (x + y).

(** Skyfield's [_sexagesimalize_to_float] and [Angle.dms()] on floats.  The
    float [divmod] is exact for the magnitudes met here (the remainder is
    an exact [fmod], and the quotient a whole number below 2^53), so it is
    the [divmod] of the rationals; the products round. *)
Definition _sexagesimalize_to_float (value : Q) : Q * Q * Q * Q :=
  let sgn := sign value in
  let n := Qabs value in
  let '(minutes, seconds) := divmod (mul n 3600) 60 in
  let '(units, minutes) := divmod minutes 60 in
  (sgn, units, minutes, seconds).

Definition dms (a : Angle) : Q * Q * Q :=
  let '(sgn, d, m, s) := _sexagesimalize_to_float a in
  (mul sgn d, mul sgn m, mul sgn s).

(** [_dms_to_dd(dms)] on floats: two divisions and two additions, each
    rounded. *)
Definition _dms_to_dd (dms : Q * Q * Q) : Q :=
  let '(d, m, s) := dms in add (add d (div m 60)) (div s 3600).

(** The rational a primitive float holds (0 for what is not finite). *)
Definition of_float (f : PrimFloat.float) : Q :=
  match FloatOps.Prim2SF f with
  | SpecFloat.S754_finite s m e =>
      ((if s then -1 else 1) * inject_Z (Zpos m) * 2 ^ e)%Q
  | _ => 0%Q
  end.

End Float64.

(* ================================================================== *)
(** * [datetime]: the calendar arithmetic of the standard library *)
(* ================================================================== *)

Module Datetime.

Definition MINYEAR : Z := 1.
Definition MAXYEAR : Z := 9999.
Definition _MAXORDINAL : Z := 3652059.

Definition _DAYS_IN_MONTH : list Z :=
  [-1; 31; 28; 31; 30; 31; 30; 31; 31; 30; 31; 30; 31].
Definition _DAYS_BEFORE_MONTH : list Z :=
  [-1; 0; 31; 59; 90; 120; 151; 181; 212; 243; 273; 304; 334].

Definition idx (l : list Z) (i : Z) : Z := nth (Z.to_nat i) l 0.
Definition b2z (b : bool) : Z := if b then 1 else 0.

Definition _is_leap (year : Z) : bool :=
  (year mod 4 =? 0) && (negb (year mod 100 =? 0) || (year mod 400 =? 0)).

Definition _days_before_year (year : Z) : Z :=
  let y := year - 1 in y * 365 + y / 4 - y / 100 + y / 400.

Definition _days_in_month (year month : Z) : Z :=
  if (month =? 2) && _is_leap year then 29 else idx _DAYS_IN_MONTH month.

Definition _days_before_month (year month : Z) : Z :=
  idx _DAYS_BEFORE_MONTH month + b2z ((2 <? month) && _is_leap year).

Definition _ymd2ord (year month day : Z) : Z :=
  _days_before_year year + _days_before_month year month + day.

Definition _DI400Y : Z := 146097.
Definition _DI100Y : Z := 36524.
Definition _DI4Y : Z := 1461.

(** The tail of [_ord2ymd]: month and day from the zero-based day of the
    year, by an estimate of the month that is exact or one too large. *)
Definition month_day (leapyear : bool) (n : Z) : Z * Z :=
  let month := Z.shiftr (n + 50) 5 in
  let preceding := idx _DAYS_BEFORE_MONTH month + b2z ((2 <? month) && leapyear) in
  if n <? preceding then
    let month' := month - 1 in
    let preceding' :=
      preceding - (idx _DAYS_IN_MONTH month' + b2z ((month' =? 2) && leapyear)) in
    (month', n - preceding' + 1)
  else (month, n - preceding + 1).

Definition _ord2ymd (ordinal : Z) : Z * Z * Z :=
  let n := ordinal - 1 in
  let n400 := n / _DI400Y in
  let n := n mod _DI400Y in
  let year := n400 * 400 + 1 in
  let n100 := n / _DI100Y in
  let n := n mod _DI100Y in
  let n4 := n / _DI4Y in
  let n := n mod _DI4Y in
  let n1 := n / 365 in
  let n := n mod 365 in
  let year := year + (n100 * 100 + n4 * 4 + n1) in
  if (n1 =? 4) || (n100 =? 4) then (year - 1, 12, 31)
  else
    let leapyear := (n1 =? 3) && (negb (n4 =? 24) || (n100 =? 3)) in
    let '(month, day) := month_day leapyear n in
    (year, month, day).

(** A naive [datetime.datetime]; the microsecond field, always zero in the
    script, is left out. *)
Record datetime : Type := mkdt
  { year : Z; month : Z; day : Z; hour : Z; minute : Z; second : Z }.

Definition _check_date_fields (y m d : Z) : exn + unit :=
  if negb ((MINYEAR <=? y) && (y <=? MAXYEAR))
  then inl (ValueError "year must be in 1..9999")
  else if negb ((1 <=? m) && (m <=? 12))
  then inl (ValueError "month must be in 1..12")
  else if negb ((1 <=? d) && (d <=? _days_in_month y m))
  then inl (ValueError "day is out of range for month")
  else inr tt.

Definition _check_time_fields (h mi s : Z) : exn + unit :=
  if negb ((0 <=? h) && (h <=? 23))
  then inl (ValueError "hour must be in 0..23")
  else if negb ((0 <=? mi) && (mi <=? 59))
  then inl (ValueError "minute must be in 0..59")
  else if negb ((0 <=? s) && (s <=? 59))
  then inl (ValueError "second must be in 0..59")
  else inr tt.

(** [datetime.datetime(y, mo, d, h, mi, s)]. *)
Definition new (y mo d h mi s : Z) : exn + datetime :=
  match _check_date_fields y mo d with
  | inl e => inl e
  | inr _ =>
      match _check_time_fields h mi s with
      | inl e => inl e
      | inr _ => inr (mkdt y mo d h mi s)
      end
  end.

(** [datetime.timedelta], normalised to days and seconds of the day;
    [new_timedelta days hours minutes seconds] stands for
    [timedelta(days, hours=hours, minutes=minutes, seconds=seconds)]. *)
Record timedelta : Type := mktd { td_days : Z; td_seconds : Z }.

Definition new_timedelta (days hours minutes seconds : Z) : timedelta :=
  let s := hours * 3600 + minutes * 60 + seconds in
  mktd (days + s / 86400) (s mod 86400).

Definition timedelta_add (a b : timedelta) : timedelta :=
  new_timedelta (td_days a + td_days b) 0 0 (td_seconds a + td_seconds b).

Definition toordinal (dt : datetime) : Z :=
  _ymd2ord (year dt) (month dt) (day dt).

(** [datetime.__add__]. *)
Definition add (dt : datetime) (other : timedelta) : exn + datetime :=
  let delta :=
    timedelta_add
      (new_timedelta (toordinal dt) (hour dt) (minute dt) (second dt)) other in
  let hour := td_seconds delta / 3600 in
  let rem := td_seconds delta mod 3600 in
  let minute := rem / 60 in
  let second := rem mod 60 in
  if (0 <? td_days delta) && (td_days delta <=? _MAXORDINAL) then
    let '(y, m, d) := _ord2ymd (td_days delta) in
    inr (mkdt y m d hour minute second)
  else inl (OverflowError "date value out of range").

(** [strftime('%Y-%m-%dT%H:%M:%S%Z')]: zero-padded decimal fields; [%Z] is
    empty for a naive datetime. *)
Definition digit (n : Z) : ascii := ascii_of_nat (48 + Z.to_nat n).

Definition pad2 (n : Z) : string :=
  String (digit (n / 10)) (String (digit (n mod 10)) EmptyString).

Definition pad4 (n : Z) : string := (pad2 (n / 100) ++ pad2 (n mod 100))%string.

Definition strftime (dt : datetime) : string :=
  (pad4 (year dt) ++ "-" ++ pad2 (month dt) ++ "-" ++ pad2 (day dt) ++ "T"
   ++ pad2 (hour dt) ++ ":" ++ pad2 (minute dt) ++ ":" ++ pad2 (second dt)
   ++ "")%string.

(** The instant a naive datetime denotes, in seconds from the midnight
    before 0001-01-01. *)
Definition to_seconds (dt : datetime) : Z :=
  toordinal dt * 86400 + hour dt * 3600 + minute dt * 60 + second dt.

(** Fields within the ranges the constructor enforces. *)
Definition valid (dt : datetime) : Prop :=
  MINYEAR <= year dt <= MAXYEAR /\ 1 <= month dt <= 12 /\
  1 <= day dt <= _days_in_month (year dt) (month dt) /\
  0 <= hour dt <= 23 /\ 0 <= minute dt <= 59 /\ 0 <= second dt <= 59.

(** ** Auxiliary definitions for the calendar proofs *)

(** A bounded universal quantifier that computes. *)
Fixpoint all_below (k : nat) (p : Z -> bool) : bool :=
  match k with
  | O => true
  | S k' => p (Z.of_nat k') && all_below k' p
  end.

(** [_days_in_month] and [_days_before_month] as functions of the leap flag. *)
Definition dim_l (leap : bool) (month : Z) : Z :=
  if (month =? 2) && leap then 29 else idx _DAYS_IN_MONTH month.
Definition dbm_l (leap : bool) (month : Z) : Z :=
  idx _DAYS_BEFORE_MONTH month + b2z ((2 <? month) && leap).

Definition month_day_ok (leap : bool) (n : Z) : bool :=
  let '(m, d) := month_day leap n in
  (1 <=? m) && (m <=? 12) && (1 <=? d) && (d <=? dim_l leap m)
  && (dbm_l leap m + d =? n + 1).

(** The length of a time delta in seconds. *)
Definition td_total (d : timedelta) : Z := td_days d * 86400 + td_seconds d.

(** Lexicographic combination of comparisons, and the field-wise
    comparison of two datetimes. *)
Definition lex (c1 c2 : comparison) : comparison :=
  match c1 with Eq => c2 | _ => c1 end.

Definition compare (a b : datetime) : comparison :=
  lex (year a ?= year b) (lex (month a ?= month b) (lex (day a ?= day b)
    (lex (hour a ?= hour b) (lex (minute a ?= minute b) (second a ?= second b))))).

Definition comparison_eqb (c1 c2 : comparison) : bool :=
  match c1, c2 with
  | Eq, Eq | Lt, Lt | Gt, Gt => true
  | _, _ => false
  end.

Definition pad2_compare_ok (a b : Z) : bool :=
  comparison_eqb (String.compare (pad2 a) (pad2 b)) (a ?= b).

End Datetime.

(** Skyfield's [ts.utc(year, month, day, hour, minute, second)]: the day
    is the one named by year, month and day; hour, minute and second are
    combined linearly into seconds after its midnight, so a minute outside
    0..59 simply counts further seconds from that same day. *)
Definition ts_utc (y mo d h mi : Z) (s : Q) : SkyTime :=
  mktime (Datetime._ymd2ord y mo d) (inject_Z (h * 3600 + mi * 60) + s)%Q.

(** The timescale's leap-second table gives, for a calendar day, the offset
    TAI - UTC in force on it.  A [Time] built by [ts.utc] takes the offset of
    the day it was built from and then counts uniform seconds: this is the
    instant at which the satellite is propagated, on the uniform (TAI)
    scale. *)
Definition elapsed (leap : Z -> Z) (t : SkyTime) : Q :=
  (inject_Z (time_day t * 86400 + leap (time_day t)) + time_seconds t)%Q.

(** The instant, on the same scale, that a civil UTC date and time of day
    denotes: the offset is that of its own day. *)
Definition civil_instant (leap : Z -> Z) (dt : Datetime.datetime) : Q :=
  inject_Z (Datetime.to_seconds dt + leap (Datetime.toordinal dt)).

(* ================================================================== *)
(** * The outside world *)
(* ================================================================== *)

(** [requests.Response], as far as the script reads it. *)
Record response : Type := mkresp { status_code : Z; text : string }.

(** The tuple [ts.now().utc]: five integers and the seconds as a float. *)
Record utc_tuple : Type := mkutc
  { t0 : Z; t1 : Z; t2 : Z; t3 : Z; t4 : Z; t5 : Q }.

(** The cities table read from [cities.pkl]. *)
Record citiesDF : Type := mkcities
  { city : list string; c_lat : list Q; c_lng : list Q; population : list Q }.

(** What the script calls but does not define.  Every call may raise. *)
Record Env : Type := mkEnv
  { satellite : Type;
    geocentric : Type;
    config_get : string -> string -> exn + string;
    session_post : string -> list (string * string) -> exn + response;
    session_get : string -> exn + response;
    EarthSatellite : string -> string -> string -> exn + satellite;
    ts_now_utc : utc_tuple;
    sat_at : satellite -> SkyTime -> exn + geocentric;
    latlon_of : geocentric -> Angle * Angle;
    read_pickle : string -> exn + citiesDF }.

(** [class MyError(Exception)]: its [__init___] (three underscores) is never
    called, so the instance just keeps the argument tuple. *)
Definition MyError (resp : response) (msg : string) : exn :=
  Raise "MyError" ["<Response>"; msg]%string.

(* ================================================================== *)
(** * The script *)
(* ================================================================== *)

(** The dictionary [positions]: four lists, appended to in step. *)
Record positions : Type := mkpos
  { col_name : list string;
    col_lat : list Q;
    col_lon : list Q;
    col_datetime : list string }.

Definition DataFrame : Type := positions.

(** [pd.DataFrame(dict_of_lists)] refuses columns of different lengths. *)
Definition pd_DataFrame (p : positions) : exn + DataFrame :=
  let n := List.length (col_name p) in
  if (Nat.eqb (List.length (col_lat p)) n && Nat.eqb (List.length (col_lon p)) n
      && Nat.eqb (List.length (col_datetime p)) n)%bool
  then inr p
  else inl (ValueError "All arrays must be of the same length").

(** [series.iloc[i]]. *)
Definition iloc {A : Type} (l : list A) (i : nat) : exn + A :=
  match nth_error l i with
  | Some x => inr x
  | None => inl (IndexError "single positional indexer is out-of-bounds")
  end.

Section Script.

Variable env : Env.

Definition _pull_tle : M (list string) :=
  let uriBase := "https://www.space-track.org"%string in
  let requestLogin := "/ajaxauth/login"%string in
  let requestCmdAction := "/basicspacedata/query"%string in
  let requestGp_HistISS :=
    "/class/gp/NORAD_CAT_ID/25544/orderby/TLE_LINE1 ASC/format/tle"%string in
  configUsr <- lift (config_get env "configuration" "username") ;;
  configPwd <- lift (config_get env "configuration" "password") ;;
  configOut <- lift (config_get env "configuration" "output") ;;
  let siteCred := [("identity", configUsr); ("password", configPwd)]%string in
  resp <- lift (session_post env (uriBase ++ requestLogin)%string siteCred) ;;
  if negb (status_code resp =? 200) then raise (MyError resp "POST fail on login")
  else
    resp <- lift (session_get env
                    (uriBase ++ requestCmdAction ++ requestGp_HistISS)%string) ;;
    if negb (status_code resp =? 200)
    then raise (MyError resp "GET fail on request for Starlink satellites")
    else
      (* line1, line2, _ = str.split(resp.text, '\r\n') *)
      match split_crlf (text resp) with
      | [line1; line2; _] => ret [line1; line2]
      | parts =>
          if (List.length parts <? 3)%nat
          then raise (ValueError "not enough values to unpack (expected 3)")
          else raise (ValueError "too many values to unpack (expected 3)")
      end.

(** The target instant of one sample: [ts.utc(t[0], ..., t[4]+minute, t[5])]. *)
Definition new_t (t : utc_tuple) (minute : Z) : SkyTime :=
  ts_utc (t0 t) (t1 t) (t2 t) (t3 t) (t4 t + minute) (t5 t).

(** The body of the loop of [_get_sat_posn]; [p] is the dictionary
    [positions] as the iteration finds it. *)
Definition sample (sat : satellite env) (t : utc_tuple) (date : Datetime.datetime)
    (minute : Z) (p : positions) : M positions :=
  newdate <- lift (Datetime.add date (Datetime.new_timedelta 0 0 minute 0)) ;;
  let p := mkpos (col_name p) (col_lat p) (col_lon p)
                 (col_datetime p ++ [Datetime.strftime newdate]) in
  let new_t := new_t t minute in
  emit (Propagate new_t) ;;;
  geocentric <- lift (sat_at env sat new_t) ;;
  let '(lat, lon) := latlon_of env geocentric in
  let lonDD := Float64._dms_to_dd (Float64.dms lon) in
  let latDD := Float64._dms_to_dd (Float64.dms lat) in
  ret (mkpos (col_name p ++ ["ISS"%string]) (col_lat p ++ [latDD])
             (col_lon p ++ [lonDD]) (col_datetime p)).

Definition _get_sat_posn (tle : list string) : M DataFrame :=
  let positions := mkpos [] [] [] [] in
  line1 <- lift (index tle 0) ;;
  line2 <- lift (index tle 1) ;;
  emit (Construct line1 line2) ;;;
  satellite <- lift (EarthSatellite env line1 line2 "ISS") ;;
  let t := ts_now_utc env in
  date <- lift (Datetime.new (t0 t) (t1 t) (t2 t) (t3 t) (t4 t) (int (t5 t))) ;;
  positions <- for_each (range (-90) 90) (sample satellite t date) positions ;;
  lift (pd_DataFrame positions).

(** One [Scattergeo] layer of the figure. *)
Record trace : Type := mktrace
  { trace_name : string; trace_lat : list Q; trace_lon : list Q }.

Record figure : Type := mkfig
  { fig_frame : DataFrame; fig_traces : list trace }.

(** The three row selections of [update_graph]: [[0:91]], [[90:180]] and
    [.iloc[90]]. *)
Definition historical_rows {A : Type} (col : list A) : list A := slice col 0 91.
Definition future_rows {A : Type} (col : list A) : list A := slice col 90 180.
Definition current_row {A : Type} (col : list A) : exn + A := iloc col 90.

Definition update_graph : M figure :=
  tle <- _pull_tle ;;
  positions <- _get_sat_posn tle ;;
  let fig := mkfig positions [] in
  citiesDF <- lift (read_pickle env "cities.pkl") ;;
  let fig := mkfig (fig_frame fig)
    (fig_traces fig ++ [mktrace "Cities" (c_lat citiesDF) (c_lng citiesDF)]) in
  let fig := mkfig (fig_frame fig)
    (fig_traces fig ++ [mktrace "Historical Path"
                          (historical_rows (col_lat positions))
                          (historical_rows (col_lon positions))]) in
  let fig := mkfig (fig_frame fig)
    (fig_traces fig ++ [mktrace "Future Path"
                          (future_rows (col_lat positions))
                          (future_rows (col_lon positions))]) in
  cur_lat <- lift (current_row (col_lat positions)) ;;
  cur_lon <- lift (current_row (col_lon positions)) ;;
  let fig := mkfig (fig_frame fig)
    (fig_traces fig ++ [mktrace "ISS Current Position" [cur_lat] [cur_lon]]) in
  ret fig.

End Script.

(* ================================================================== *)
(** * Closed forms of a successful run, and a sample environment *)
(* ================================================================== *)

(** The clock reading denotes a calendar instant, not within the first or
    the last year the [datetime] type can hold. *)
Definition clock_ok (t : utc_tuple) : bool :=
  (2 <=? t0 t) && (t0 t <=? 9998) && (1 <=? t1 t) && (t1 t <=? 12)
  && (1 <=? t2 t) && (t2 t <=? Datetime._days_in_month (t0 t) (t1 t))
  && (0 <=? t3 t) && (t3 t <=? 23) && (0 <=? t4 t) && (t4 t <=? 59)
  && Qle_bool 0 (t5 t) && negb (Qle_bool 60 (t5 t)).

(** The reference instant as the script's [date]: seconds truncated. *)
Definition date_of (t : utc_tuple) : Datetime.datetime :=
  Datetime.mkdt (t0 t) (t1 t) (t2 t) (t3 t) (t4 t) (int (t5 t)).

(** The reference instant itself, fractional seconds included. *)
Definition reference_instant (t : utc_tuple) : SkyTime :=
  ts_utc (t0 t) (t1 t) (t2 t) (t3 t) (t4 t) (t5 t).

(** [date + timedelta(minutes=m)], and the row of one offset. *)
Definition date_at (t : utc_tuple) (m : Z) : Datetime.datetime :=
  match Datetime.add (date_of t) (Datetime.new_timedelta 0 0 m 0) with
  | inr d => d
  | inl _ => date_of t
  end.

Definition stamp_at (t : utc_tuple) (m : Z) : string :=
  Datetime.strftime (date_at t m).

Definition latlon_at (env : Env) (sat : satellite env) (m : Z) : Q * Q :=
  match sat_at env sat (new_t (ts_now_utc env) m) with
  | inr g =>
      let '(lat, lon) := latlon_of env g in
      (Float64._dms_to_dd (Float64.dms lat), Float64._dms_to_dd (Float64.dms lon))
  | inl _ => (0, 0)%Q
  end.

Definition rows (env : Env) (sat : satellite env) (offsets : list Z) : positions :=
  mkpos (map (fun _ => "ISS"%string) offsets)
        (map (fun m => fst (latlon_at env sat m)) offsets)
        (map (fun m => snd (latlon_at env sat m)) offsets)
        (map (stamp_at (ts_now_utc env)) offsets).

Definition append_rows (p q : positions) : positions :=
  mkpos (col_name p ++ col_name q) (col_lat p ++ col_lat q)
        (col_lon p ++ col_lon q) (col_datetime p ++ col_datetime q).

(** The call trace of a complete run. *)
Definition full_trace (t : utc_tuple) (line1 line2 : string) : list event :=
  Construct line1 line2 :: map (fun m => Propagate (new_t t m)) (range (-90) 90).

(** A sample environment: a well-formed response, a clock reading with
    fractional seconds, and a toy satellite whose latitude in degrees is the
    offset in minutes (the longitude twice that). *)
Definition CRLF : string := String CR (String LF EmptyString).

Definition demo_line1 : string :=
  "1 25544U 98067A   23166.52083333  .00012345  00000-0  22222-3 0  9990".
Definition demo_line2 : string :=
  "2 25544  51.6400 200.0000 0005000 100.0000 260.0000 15.50000000400000".

Definition demo_text : string :=
  (demo_line1 ++ CRLF ++ demo_line2 ++ CRLF)%string.

Definition demo_now : utc_tuple := mkutc 2023 6 15 12 30 30.5.

Definition demo_env : Env :=
  {| satellite := unit;
     geocentric := SkyTime;
     config_get := fun _ _ => inr "secret"%string;
     session_post := fun _ _ => inr (mkresp 200 "");
     session_get := fun _ => inr (mkresp 200 demo_text);
     EarthSatellite := fun _ _ _ => inr tt;
     ts_now_utc := demo_now;
     sat_at := fun _ t => inr t;
     latlon_of := fun g =>
       let m := ((time_seconds g - time_seconds (reference_instant demo_now)) / 60)%Q
       in (m, 2 * m)%Q;
     read_pickle := fun _ => inr (mkcities [] [] [] []) |}.

(** The same environment with another response text. *)
Definition with_text (env : Env) (txt : string) : Env :=
  {| satellite := satellite env;
     geocentric := geocentric env;
     config_get := config_get env;
     session_post := session_post env;
     session_get := fun _ => inr (mkresp 200 txt);
     EarthSatellite := EarthSatellite env;
     ts_now_utc := ts_now_utc env;
     sat_at := sat_at env;
     latlon_of := latlon_of env;
     read_pickle := read_pickle env |}.

(** Two element lines separated by bare line feeds. *)
Definition lf_text : string :=
  (demo_line1 ++ String LF EmptyString ++ demo_line2 ++ String LF EmptyString)%string.

(** The conditions under which [_get_sat_posn] runs to completion: the
    constructor accepts the two lines, the clock reading is sound, and the
    propagation succeeds at each of the 180 sample instants. *)
Definition all_calls_succeed (env : Env) (line1 line2 : string)
    (sat : satellite env) : Prop :=
  EarthSatellite env line1 line2 "ISS" = inr sat /\
  clock_ok (ts_now_utc env) = true /\
  (forall m, In m (range (-90) 90) ->
             exists g, sat_at env sat (new_t (ts_now_utc env) m) = inr g).

(** Python's [<] on strings. *)
Definition str_lt (a b : string) : Prop := String.ltb a b = true.

(** The sample environment with a propagator that raises from ten minutes
    after the reference instant on. *)
Definition diverging_env : Env :=
  {| satellite := unit;
     geocentric := SkyTime;
     config_get := config_get demo_env;
     session_post := session_post demo_env;
     session_get := session_get demo_env;
     EarthSatellite := fun _ _ _ => inr tt;
     ts_now_utc := demo_now;
     sat_at := fun _ t =>
       if Qle_bool (time_seconds (reference_instant demo_now) + 600) (time_seconds t)
       then inl (Raise "RuntimeError" ["propagation diverged"%string])
       else inr t;
     latlon_of := latlon_of demo_env;
     read_pickle := read_pickle demo_env |}.

(** ['\r\n'.join(parts)], the inverse of the split. *)
Fixpoint join_crlf (parts : list string) : string :=
  match parts with
  | [] => EmptyString
  | x :: rest =>
      match rest with
      | [] => x
      | _ :: _ => (x ++ CRLF ++ join_crlf rest)%string
      end
  end.

(** Further variations of the sample environment: other HTTP answers, a
    configuration file without the [output] option, a clock reading taken
    during a leap second, and a missing cities file. *)
Definition with_responses (env : Env) (login query : response) : Env :=
  {| satellite := satellite env;
     geocentric := geocentric env;
     config_get := config_get env;
     session_post := fun _ _ => inr login;
     session_get := fun _ => inr query;
     EarthSatellite := EarthSatellite env;
     ts_now_utc := ts_now_utc env;
     sat_at := sat_at env;
     latlon_of := latlon_of env;
     read_pickle := read_pickle env |}.

Definition NoOptionError (option section : string) : exn :=
  Raise "NoOptionError" [option; section].

Definition no_output_env : Env :=
  {| satellite := satellite demo_env;
     geocentric := geocentric demo_env;
     config_get := fun section option =>
       if String.eqb option "output"
       then inl (NoOptionError option section)
       else inr "secret"%string;
     session_post := session_post demo_env;
     session_get := session_get demo_env;
     EarthSatellite := EarthSatellite demo_env;
     ts_now_utc := ts_now_utc demo_env;
     sat_at := sat_at demo_env;
     latlon_of := latlon_of demo_env;
     read_pickle := read_pickle demo_env |}.

Definition leap_second_now : utc_tuple := mkutc 2016 12 31 23 59 60.25.

Definition leap_second_env : Env :=
  {| satellite := satellite demo_env;
     geocentric := geocentric demo_env;
     config_get := config_get demo_env;
     session_post := session_post demo_env;
     session_get := session_get demo_env;
     EarthSatellite := EarthSatellite demo_env;
     ts_now_utc := leap_second_now;
     sat_at := sat_at demo_env;
     latlon_of := latlon_of demo_env;
     read_pickle := read_pickle demo_env |}.

Definition no_cities_env : Env :=
  {| satellite := satellite demo_env;
     geocentric := geocentric demo_env;
     config_get := config_get demo_env;
     session_post := session_post demo_env;
     session_get := session_get demo_env;
     EarthSatellite := EarthSatellite demo_env;
     ts_now_utc := ts_now_utc demo_env;
     sat_at := sat_at demo_env;
     latlon_of := latlon_of demo_env;
     read_pickle := fun _ =>
       inl (Raise "FileNotFoundError" ["cities.pkl"%string]) |}.

(** The date fields and the hour and minute of a clock reading are within
    the ranges the [datetime] constructor accepts. *)
Definition date_fields_ok (t : utc_tuple) : bool :=
  (1 <=? t0 t) && (t0 t <=? 9999) && (1 <=? t1 t) && (t1 t <=? 12)
  && (1 <=? t2 t) && (t2 t <=? Datetime._days_in_month (t0 t) (t1 t))
  && (0 <=? t3 t) && (t3 t <=? 23) && (0 <=? t4 t) && (t4 t <=? 59).

(** A leap-second table around the leap second that ended 2016: TAI - UTC
    was 36 s up to 2016-12-31 and 37 s from 2017-01-01. *)
Definition leap_table_2017 (day : Z) : Z :=
  if day <? Datetime._ymd2ord 2017 1 1 then 36 else 37.

(** The sample environment with a clock reading half an hour before that
    leap second. *)
Definition new_year_now : utc_tuple := mkutc 2016 12 31 23 30 0.

Definition new_year_env : Env :=
  {| satellite := satellite demo_env;
     geocentric := geocentric demo_env;
     config_get := config_get demo_env;
     session_post := session_post demo_env;
     session_get := session_get demo_env;
     EarthSatellite := EarthSatellite demo_env;
     ts_now_utc := new_year_now;
     sat_at := sat_at demo_env;
     latlon_of := latlon_of demo_env;
     read_pickle := read_pickle demo_env |}.

(** Element lines that are not a well-formed pair: a second line cut short
    after its third field, a second line with another catalog number than
    the first, and two lines of an error page with no number in any
    column. *)
Definition truncated_line2 : string := "2 25544  51.6400".

Definition truncated_text : string :=
  (demo_line1 ++ CRLF ++ truncated_line2 ++ CRLF)%string.

Definition mismatched_line2 : string :=
  "2 25545  51.6400 200.0000 0005000 100.0000 260.0000 15.50000000400000".

Definition mismatched_text : string :=
  (demo_line1 ++ CRLF ++ mismatched_line2 ++ CRLF)%string.

Definition garbage_line1 : string := "<html><body>".
Definition garbage_line2 : string := "Service unavailable".

Definition garbage_text : string :=
  (garbage_line1 ++ CRLF ++ garbage_line2 ++ CRLF)%string.

(** A position as [satellite.at] hands it back.  Skyfield does not raise
    when the propagator fails at an instant: it returns a position all the
    same and reports the failure on it, in the attribute [message] ([None]
    when all went well).  The script never reads that attribute. *)
Record marked_position : Type := mkmarked
  { position_time : SkyTime; position_message : option string }.

(** The sample environment with a propagator that fails in this way from
    ten minutes after the reference instant on. *)
Definition silent_failure_env : Env :=
  {| satellite := unit;
     geocentric := marked_position;
     config_get := config_get demo_env;
     session_post := session_post demo_env;
     session_get := session_get demo_env;
     EarthSatellite := fun _ _ _ => inr tt;
     ts_now_utc := demo_now;
     sat_at := fun _ t =>
       inr (mkmarked t
              (if Qle_bool (time_seconds (reference_instant demo_now) + 600)
                           (time_seconds t)
               then Some "mean motion less than 0.0"%string
               else None));
     latlon_of := fun g => latlon_of demo_env (position_time g);
     read_pickle := read_pickle demo_env |}.

(** The failure reports of the samples of a window, in order. *)
Definition reported_failures (env : Env) (sat : satellite env)
    (message : geocentric env -> option string) (offsets : list Z)
    : list (option string) :=
  map (fun m => match sat_at env sat (new_t (ts_now_utc env) m) with
                | inr g => message g
                | inl _ => None
                end) offsets.

(* ================================================================== *)
(** * Theorems *)
(* ================================================================== *)

(* ================================================================== *)
(** ** The calendar: ordinals and dates determine each other *)
(* ================================================================== *)

Module DatetimeFacts.

Import Datetime.

Lemma all_below_spec k p :
  all_below k p = true -> forall n, 0 <= n < Z.of_nat k -> p n = true.
Proof.
  induction k as [|k IH]; simpl; intros H n Hn; [lia|].
  apply andb_true_iff in H as [H1 H2].
  destruct (Z.eq_dec n (Z.of_nat k)) as [->|Hne]; [exact H1|].
  apply IH; [exact H2 | lia].
Qed.

Lemma month_day_spec leap n :
  0 <= n < 365 + b2z leap ->
  let '(m, d) := month_day leap n in
  1 <= m <= 12 /\ 1 <= d <= dim_l leap m /\ dbm_l leap m + d = n + 1.
Proof.
  intros Hn.
  assert (H : month_day_ok leap n = true).
  { destruct leap; simpl in Hn.
    - apply (all_below_spec 366); [vm_compute; reflexivity | lia].
    - apply (all_below_spec 365); [vm_compute; reflexivity | lia]. }
  unfold month_day_ok in H. destruct (month_day leap n) as [m d].
  rewrite !andb_true_iff in H. lia.
Qed.

Lemma is_leap_decomp a b c e :
  0 <= b <= 3 -> 0 <= c <= 24 -> 0 <= e <= 3 ->
  _is_leap (400 * a + 100 * b + 4 * c + e + 1) = (e =? 3) && (negb (c =? 24) || (b =? 3)).
Proof.
  intros Hb Hc He. unfold _is_leap.
  set (y := 400 * a + 100 * b + 4 * c + e + 1).
  assert (H4 : y mod 4 = (e + 1) mod 4).
  { unfold y. replace (400 * a + 100 * b + 4 * c + e + 1) with ((e + 1) + (100 * a + 25 * b + c) * 4) by lia.
    apply Z.mod_add. lia. }
  assert (H100 : y mod 100 = (4 * c + e + 1) mod 100).
  { unfold y. replace (400 * a + 100 * b + 4 * c + e + 1) with ((4 * c + e + 1) + (4 * a + b) * 100) by lia.
    apply Z.mod_add. lia. }
  assert (H400 : y mod 400 = (100 * b + 4 * c + e + 1) mod 400).
  { unfold y. replace (400 * a + 100 * b + 4 * c + e + 1) with ((100 * b + 4 * c + e + 1) + a * 400) by lia.
    apply Z.mod_add. lia. }
  rewrite H4, H100, H400. clear H4 H100 H400 y.
  destruct (e =? 3) eqn:E3; destruct (c =? 24) eqn:E24; destruct (b =? 3) eqn:Eb; cbn [andb orb negb];
    rewrite ?Z.eqb_eq, ?Z.eqb_neq in *;
    rewrite ?andb_true_iff, ?andb_false_iff, ?orb_true_iff, ?orb_false_iff, ?negb_true_iff, ?negb_false_iff,
            ?Z.eqb_eq, ?Z.eqb_neq;
    Z.div_mod_to_equations; lia.
Qed.

Lemma dby_decomp a b c e :
  0 <= b <= 3 -> 0 <= c <= 24 -> 0 <= e <= 3 ->
  _days_before_year (400 * a + 100 * b + 4 * c + e + 1) = 146097 * a + 36524 * b + 1461 * c + 365 * e.
Proof.
  intros Hb Hc He. unfold _days_before_year.
  replace (400 * a + 100 * b + 4 * c + e + 1 - 1) with (400 * a + 100 * b + 4 * c + e) by lia.
  cbv zeta. Z.div_mod_to_equations. lia.
Qed.

Lemma dim_l_eq y m : _days_in_month y m = dim_l (_is_leap y) m.
Proof. reflexivity. Qed.
Lemma dbm_l_eq y m : _days_before_month y m = dbm_l (_is_leap y) m.
Proof. reflexivity. Qed.

Ltac eval_tables :=
  repeat match goal with
  | |- context [dim_l ?l ?m] =>
      let v := eval vm_compute in (dim_l l m) in change (dim_l l m) with v
  | |- context [dbm_l ?l ?m] =>
      let v := eval vm_compute in (dbm_l l m) in change (dbm_l l m) with v
  | H : context [dim_l ?l ?m] |- _ =>
      let v := eval vm_compute in (dim_l l m) in change (dim_l l m) with v in H
  | H : context [dbm_l ?l ?m] |- _ =>
      let v := eval vm_compute in (dbm_l l m) in change (dbm_l l m) with v in H
  | |- context [b2z ?b] =>
      let v := eval vm_compute in (b2z b) in change (b2z b) with v
  end.

Lemma month_cases m : 1 <= m <= 12 ->
  m = 1 \/ m = 2 \/ m = 3 \/ m = 4 \/ m = 5 \/ m = 6 \/ m = 7 \/ m = 8 \/ m = 9 \/ m = 10 \/ m = 11 \/ m = 12.
Proof. lia. Qed.

Lemma dbm_dim_bounds leap m d :
  1 <= m <= 12 -> 1 <= d <= dim_l leap m -> 0 <= dbm_l leap m + d - 1 < 365 + b2z leap.
Proof.
  intros Hm Hd. destruct (month_cases m Hm) as [->|[->|[->|[->|[->|[->|[->|[->|[->|[->|[->| ->]]]]]]]]]]];
  destruct leap; eval_tables; lia.
Qed.

Lemma dbm_inj leap m d m' d' :
  1 <= m <= 12 -> 1 <= d <= dim_l leap m ->
  1 <= m' <= 12 -> 1 <= d' <= dim_l leap m' ->
  dbm_l leap m + d = dbm_l leap m' + d' -> m = m' /\ d = d'.
Proof.
  intros Hm Hd Hm' Hd'.
  destruct (month_cases m Hm) as [->|[->|[->|[->|[->|[->|[->|[->|[->|[->|[->| ->]]]]]]]]]]];
  destruct (month_cases m' Hm') as [->|[->|[->|[->|[->|[->|[->|[->|[->|[->|[->| ->]]]]]]]]]]];
  destruct leap; eval_tables; lia.
Qed.

Theorem ord2ymd_ymd2ord n :
  let '(y, m, d) := _ord2ymd n in _ymd2ord y m d = n.
Proof.
  unfold _ord2ymd, _DI400Y, _DI100Y, _DI4Y. cbv zeta.
  set (q400 := (n - 1) / 146097). set (r400 := (n - 1) mod 146097).
  set (q100 := r400 / 36524). set (r100 := r400 mod 36524).
  set (q4 := r100 / 1461). set (r4 := r100 mod 1461).
  set (q1 := r4 / 365). set (r1 := r4 mod 365).
  assert (E400 : n - 1 = 146097 * q400 + r400 /\ 0 <= r400 < 146097)
    by (split; [apply Z.div_mod | apply Z.mod_pos_bound]; lia).
  assert (E100 : r400 = 36524 * q100 + r100 /\ 0 <= r100 < 36524)
    by (split; [apply Z.div_mod | apply Z.mod_pos_bound]; lia).
  assert (E4 : r100 = 1461 * q4 + r4 /\ 0 <= r4 < 1461)
    by (split; [apply Z.div_mod | apply Z.mod_pos_bound]; lia).
  assert (E1 : r4 = 365 * q1 + r1 /\ 0 <= r1 < 365)
    by (split; [apply Z.div_mod | apply Z.mod_pos_bound]; lia).
  clearbody q400 r400 q100 r100 q4 r4 q1 r1.
  destruct ((q1 =? 4) || (q100 =? 4)) eqn:Esp.
  - unfold _ymd2ord. rewrite dbm_l_eq.
    apply orb_true_iff in Esp. rewrite !Z.eqb_eq in Esp.
    replace (q400 * 400 + 1 + (q100 * 100 + q4 * 4 + q1) - 1)
      with (400 * q400 + 100 * q100 + 4 * q4 + q1) by lia.
    destruct Esp as [-> | ->].
    + replace (400 * q400 + 100 * q100 + 4 * q4 + 4)
        with (400 * q400 + 100 * q100 + 4 * q4 + 3 + 1) by lia.
      rewrite is_leap_decomp, dby_decomp by lia.
      replace (q4 =? 24) with false by (symmetry; apply Z.eqb_neq; lia).
      eval_tables. lia.
    + assert (q4 = 0 /\ q1 = 0) as [-> ->] by lia.
      replace (400 * q400 + 100 * 4 + 4 * 0 + 0)
        with (400 * q400 + 100 * 3 + 4 * 24 + 3 + 1) by lia.
      rewrite is_leap_decomp, dby_decomp by lia. eval_tables. lia.
  - apply orb_false_iff in Esp. rewrite !Z.eqb_neq in Esp.
    set (leap := (q1 =? 3) && (negb (q4 =? 24) || (q100 =? 3))).
    pose proof (month_day_spec leap r1) as Hmd.
    destruct (month_day leap r1) as [m d].
    destruct Hmd as (Hm & Hd & Hsum); [destruct leap; eval_tables; lia|].
    unfold _ymd2ord. rewrite dbm_l_eq.
    replace (q400 * 400 + 1 + (q100 * 100 + q4 * 4 + q1))
      with (400 * q400 + 100 * q100 + 4 * q4 + q1 + 1) by lia.
    rewrite is_leap_decomp, dby_decomp by lia.
    fold leap. lia.
Qed.


Lemma ord2ymd_valid n :
  let '(y, m, d) := _ord2ymd n in 1 <= m <= 12 /\ 1 <= d <= _days_in_month y m.
Proof.
  unfold _ord2ymd, _DI400Y, _DI100Y, _DI4Y. cbv zeta.
  set (q400 := (n - 1) / 146097). set (r400 := (n - 1) mod 146097).
  set (q100 := r400 / 36524). set (r100 := r400 mod 36524).
  set (q4 := r100 / 1461). set (r4 := r100 mod 1461).
  set (q1 := r4 / 365). set (r1 := r4 mod 365).
  assert (E400 : n - 1 = 146097 * q400 + r400 /\ 0 <= r400 < 146097)
    by (split; [apply Z.div_mod | apply Z.mod_pos_bound]; lia).
  assert (E100 : r400 = 36524 * q100 + r100 /\ 0 <= r100 < 36524)
    by (split; [apply Z.div_mod | apply Z.mod_pos_bound]; lia).
  assert (E4 : r100 = 1461 * q4 + r4 /\ 0 <= r4 < 1461)
    by (split; [apply Z.div_mod | apply Z.mod_pos_bound]; lia).
  assert (E1 : r4 = 365 * q1 + r1 /\ 0 <= r1 < 365)
    by (split; [apply Z.div_mod | apply Z.mod_pos_bound]; lia).
  clearbody q400 r400 q100 r100 q4 r4 q1 r1.
  destruct ((q1 =? 4) || (q100 =? 4)) eqn:Esp.
  - rewrite dim_l_eq. destruct (_is_leap _); eval_tables; lia.
  - apply orb_false_iff in Esp. rewrite !Z.eqb_neq in Esp.
    set (leap := (q1 =? 3) && (negb (q4 =? 24) || (q100 =? 3))).
    pose proof (month_day_spec leap r1) as Hmd.
    destruct (month_day leap r1) as [m d].
    destruct Hmd as (Hm & Hd & Hsum); [destruct leap; eval_tables; lia|].
    rewrite dim_l_eq.
    replace (q400 * 400 + 1 + (q100 * 100 + q4 * 4 + q1))
      with (400 * q400 + 100 * q100 + 4 * q4 + q1 + 1) by lia.
    rewrite is_leap_decomp by lia. fold leap. lia.
Qed.

Lemma dby_succ y : _days_before_year (y + 1) = _days_before_year y + 365 + b2z (_is_leap y).
Proof.
  unfold _days_before_year, _is_leap, b2z.
  replace (y + 1 - 1) with y by lia.
  destruct (y mod 4 =? 0) eqn:E4; destruct (y mod 100 =? 0) eqn:E100; destruct (y mod 400 =? 0) eqn:E400; simpl;
  rewrite ?Z.eqb_eq, ?Z.eqb_neq in *; Z.div_mod_to_equations; lia.
Qed.

Lemma dby_mono y y' : y <= y' -> _days_before_year y <= _days_before_year y'.
Proof. unfold _days_before_year. cbv zeta. intros H. Z.div_mod_to_equations. lia. Qed.

Lemma ymd2ord_bounds y m d :
  1 <= m <= 12 -> 1 <= d <= _days_in_month y m ->
  _days_before_year y < _ymd2ord y m d <= _days_before_year (y + 1).
Proof.
  intros Hm Hd. unfold _ymd2ord. rewrite dby_succ, dbm_l_eq. rewrite dim_l_eq in Hd.
  pose proof (dbm_dim_bounds _ _ _ Hm Hd). lia.
Qed.

Lemma ymd2ord_inj y m d y' m' d' :
  1 <= m <= 12 -> 1 <= d <= _days_in_month y m ->
  1 <= m' <= 12 -> 1 <= d' <= _days_in_month y' m' ->
  _ymd2ord y m d = _ymd2ord y' m' d' -> y = y' /\ m = m' /\ d = d'.
Proof.
  intros Hm Hd Hm' Hd' E.
  pose proof (ymd2ord_bounds _ _ _ Hm Hd) as B.
  pose proof (ymd2ord_bounds _ _ _ Hm' Hd') as B'.
  assert (y = y') as <-.
  { destruct (Z.lt_trichotomy y y') as [L | [-> | L]]; [exfalso | reflexivity | exfalso].
    - pose proof (dby_mono (y + 1) y'). lia.
    - pose proof (dby_mono (y' + 1) y). lia. }
  split; [reflexivity|].
  unfold _ymd2ord in E. rewrite !dbm_l_eq in E. rewrite dim_l_eq in Hd, Hd'.
  apply (dbm_inj (_is_leap y)); try assumption. lia.
Qed.

Theorem ymd2ord_ord2ymd y m d :
  1 <= m <= 12 -> 1 <= d <= _days_in_month y m ->
  _ord2ymd (_ymd2ord y m d) = (y, m, d).
Proof.
  intros Hm Hd.
  pose proof (ord2ymd_ymd2ord (_ymd2ord y m d)) as H.
  pose proof (ord2ymd_valid (_ymd2ord y m d)) as V.
  destruct (_ord2ymd (_ymd2ord y m d)) as [[y' m'] d'].
  destruct V as [Vm Vd].
  destruct (ymd2ord_inj _ _ _ _ _ _ Vm Vd Hm Hd H) as (-> & -> & ->).
  reflexivity.
Qed.

Lemma ord2ymd_year_range n :
  1 <= n <= 3652059 -> let '(y, _, _) := _ord2ymd n in 1 <= y <= 9999.
Proof.
  intros Hn.
  pose proof (ord2ymd_ymd2ord n) as H.
  pose proof (ord2ymd_valid n) as V.
  destruct (_ord2ymd n) as [[y m] d]. destruct V as [Vm Vd].
  pose proof (ymd2ord_bounds _ _ _ Vm Vd) as B.
  split.
  - destruct (Z_lt_le_dec y 1) as [L|]; [|assumption].
    pose proof (dby_mono (y + 1) 1). change (_days_before_year 1) with 0 in *. lia.
  - destruct (Z_lt_le_dec 9999 y) as [L|]; [|assumption].
    pose proof (dby_mono 10000 y). change (_days_before_year 10000) with 3652059 in *. lia.
Qed.

(** *** Time deltas and [datetime + timedelta] *)

Lemma new_timedelta_total days hours minutes seconds :
  td_total (new_timedelta days hours minutes seconds)
  = days * 86400 + hours * 3600 + minutes * 60 + seconds.
Proof.
  unfold td_total, new_timedelta. cbn [td_days td_seconds].
  Z.div_mod_to_equations. lia.
Qed.

Lemma new_timedelta_seconds days hours minutes seconds :
  0 <= td_seconds (new_timedelta days hours minutes seconds) < 86400.
Proof.
  unfold new_timedelta. cbn [td_seconds]. apply Z.mod_pos_bound. lia.
Qed.

Lemma timedelta_add_total a b :
  td_total (timedelta_add a b) = td_total a + td_total b.
Proof.
  unfold timedelta_add. rewrite new_timedelta_total. unfold td_total. lia.
Qed.

Lemma valid_date_ordinal y m d :
  1 <= m <= 12 -> 1 <= d <= _days_in_month y m ->
  2 <= y <= 9998 -> 366 <= _ymd2ord y m d <= 3652059 - 365.
Proof.
  intros Hm Hd Hy.
  pose proof (ymd2ord_bounds _ _ _ Hm Hd) as B.
  pose proof (dby_mono 2 y ltac:(lia)) as L.
  pose proof (dby_mono (y + 1) 9999 ltac:(lia)) as U.
  change (_days_before_year 2) with 365 in L.
  change (_days_before_year 9999) with 3651694 in U. lia.
Qed.

(** The outcome of [dt + delta] whenever the resulting day is within
    [1 .. _MAXORDINAL]: a valid datetime denoting the shifted instant. *)
Lemma add_spec dt delta :
  valid dt ->
  86400 <= to_seconds dt + td_total delta < (_MAXORDINAL + 1) * 86400 ->
  exists dt', add dt delta = inr dt' /\ valid dt' /\
              to_seconds dt' = to_seconds dt + td_total delta.
Proof.
  intros (Hy & Hm & Hd & Hh & Hmi & Hs) Hrange.
  unfold add.
  set (sum := timedelta_add
                (new_timedelta (toordinal dt) (hour dt) (minute dt) (second dt)) delta).
  assert (Htot : td_total sum = to_seconds dt + td_total delta).
  { unfold sum. rewrite timedelta_add_total, new_timedelta_total.
    unfold to_seconds. lia. }
  assert (Hsec : 0 <= td_seconds sum < 86400)
    by (unfold sum, timedelta_add; apply new_timedelta_seconds).
  unfold _MAXORDINAL in *.
  assert (Hdays : 0 < td_days sum <= 3652059) by (unfold td_total in *; lia).
  cbv zeta.
  replace ((0 <? td_days sum) && (td_days sum <=? 3652059)) with true
    by (symmetry; apply andb_true_iff; split; [apply Z.ltb_lt | apply Z.leb_le]; lia).
  pose proof (ord2ymd_ymd2ord (td_days sum)) as Hord.
  pose proof (ord2ymd_valid (td_days sum)) as Hval.
  pose proof (ord2ymd_year_range (td_days sum) ltac:(lia)) as Hyr.
  destruct (_ord2ymd (td_days sum)) as [[y m] d].
  destruct Hval as [Vm Vd].
  eexists. split; [reflexivity|]. split.
  - unfold valid, MINYEAR, MAXYEAR. cbn [year month day hour minute second].
    repeat split; try lia; Z.div_mod_to_equations; lia.
  - rewrite <- Htot. unfold td_total, to_seconds, toordinal.
    cbn [year month day hour minute second].
    rewrite Hord. Z.div_mod_to_equations. lia.
Qed.

(** Adding the zero delta gives the datetime back. *)
Lemma add_zero dt :
  valid dt -> add dt (new_timedelta 0 0 0 0) = inr dt.
Proof.
  intros (Hy & Hm & Hd & Hh & Hmi & Hs).
  unfold add.
  set (sum := timedelta_add
                (new_timedelta (toordinal dt) (hour dt) (minute dt) (second dt))
                (new_timedelta 0 0 0 0)).
  assert (Htot : td_total sum = to_seconds dt).
  { unfold sum. rewrite timedelta_add_total, !new_timedelta_total.
    unfold to_seconds. lia. }
  assert (Hsec : 0 <= td_seconds sum < 86400)
    by (unfold sum, timedelta_add; apply new_timedelta_seconds).
  unfold td_total, to_seconds in Htot.
  assert (Hd' : td_days sum = toordinal dt) by lia.
  assert (Hs' : td_seconds sum = hour dt * 3600 + minute dt * 60 + second dt) by lia.
  pose proof (ymd2ord_bounds _ _ _ Hm Hd) as B.
  pose proof (dby_mono 1 (year dt) ltac:(unfold MINYEAR in Hy; lia)) as L.
  pose proof (dby_mono (year dt + 1) 10000 ltac:(unfold MAXYEAR in Hy; lia)) as U.
  change (_days_before_year 1) with 0 in L.
  change (_days_before_year 10000) with 3652059 in U.
  cbv zeta. rewrite Hd', Hs'. unfold _MAXORDINAL, toordinal in *.
  replace ((0 <? _ymd2ord (year dt) (month dt) (day dt))
           && (_ymd2ord (year dt) (month dt) (day dt) <=? 3652059)) with true
    by (symmetry; apply andb_true_iff; split; [apply Z.ltb_lt | apply Z.leb_le]; lia).
  rewrite (ymd2ord_ord2ymd _ _ _ Hm Hd).
  destruct dt as [y m d h mi s]. cbn [year month day hour minute second] in *.
  apply f_equal. f_equal; Z.div_mod_to_equations; lia.
Qed.

(** *** Order: instants, fields, and formatted strings agree *)

Lemma dbm_month_mono leap m m' :
  1 <= m -> m < m' -> m' <= 12 -> dbm_l leap m + dim_l leap m <= dbm_l leap m'.
Proof.
  intros H1 H2 H3.
  destruct (month_cases m ltac:(lia)) as [->|[->|[->|[->|[->|[->|[->|[->|[->|[->|[->| ->]]]]]]]]]]];
  destruct (month_cases m' ltac:(lia)) as [->|[->|[->|[->|[->|[->|[->|[->|[->|[->|[->| ->]]]]]]]]]]];
  try lia; destruct leap; eval_tables; lia.
Qed.

Lemma toordinal_year_lt a b :
  valid a -> valid b -> year a < year b -> toordinal a < toordinal b.
Proof.
  intros (_ & Hm & Hd & _) (_ & Hm' & Hd' & _) Hlt. unfold toordinal.
  pose proof (ymd2ord_bounds _ _ _ Hm Hd).
  pose proof (ymd2ord_bounds _ _ _ Hm' Hd').
  pose proof (dby_mono (year a + 1) (year b) ltac:(lia)). lia.
Qed.

Lemma toordinal_month_lt a b :
  valid a -> valid b -> year a = year b -> month a < month b ->
  toordinal a < toordinal b.
Proof.
  intros (_ & Hm & Hd & _) (_ & Hm' & Hd' & _) Hy Hlt.
  unfold toordinal, _ymd2ord. rewrite !dbm_l_eq. rewrite dim_l_eq in Hd, Hd'.
  rewrite Hy in *.
  pose proof (dbm_month_mono (_is_leap (year b)) (month a) (month b)). lia.
Qed.

Lemma toordinal_day_lt a b :
  year a = year b -> month a = month b -> day a < day b ->
  toordinal a < toordinal b.
Proof.
  intros Hy Hm Hlt. unfold toordinal, _ymd2ord. rewrite Hy, Hm. lia.
Qed.

(** An earlier instant compares as smaller field by field. *)
Lemma compare_of_seconds a b :
  valid a -> valid b -> to_seconds a < to_seconds b -> compare a b = Lt.
Proof.
  intros Va Vb Hlt.
  pose proof (toordinal_year_lt a b Va Vb) as Y1.
  pose proof (toordinal_year_lt b a Vb Va) as Y2.
  pose proof (toordinal_month_lt a b Va Vb) as M1.
  pose proof (toordinal_month_lt b a Vb Va) as M2.
  pose proof (toordinal_day_lt a b) as D1.
  pose proof (toordinal_day_lt b a) as D2.
  destruct Va as (_ & _ & _ & Hh & Hmi & Hs).
  destruct Vb as (_ & _ & _ & Hh' & Hmi' & Hs').
  unfold to_seconds in Hlt. unfold compare, lex.
  assert (Eo : year a = year b -> month a = month b -> day a = day b ->
               toordinal a = toordinal b)
    by (intros E1 E2 E3; unfold toordinal; rewrite E1, E2, E3; reflexivity).
  destruct (Z.compare_spec (year a) (year b)); [| reflexivity | exfalso; lia].
  destruct (Z.compare_spec (month a) (month b)); [| reflexivity | exfalso; lia].
  destruct (Z.compare_spec (day a) (day b)); [| reflexivity | exfalso; lia].
  destruct (Z.compare_spec (hour a) (hour b)); [| reflexivity | exfalso; lia].
  destruct (Z.compare_spec (minute a) (minute b)); [| reflexivity | exfalso; lia].
  destruct (Z.compare_spec (second a) (second b)); [exfalso; lia | reflexivity | exfalso; lia].
Qed.

Lemma string_compare_app (a b s t : string) :
  String.length a = String.length b ->
  String.compare (a ++ s) (b ++ t) = lex (String.compare a b) (String.compare s t).
Proof.
  revert b. induction a as [|c a IH]; intros [|c' b] Hlen; try discriminate.
  - reflexivity.
  - cbn [append String.compare]. injection Hlen as Hlen.
    destruct (Ascii.compare c c'); [apply IH; exact Hlen | reflexivity | reflexivity].
Qed.

Lemma comparison_eqb_eq c1 c2 : comparison_eqb c1 c2 = true -> c1 = c2.
Proof. destruct c1, c2; simpl; congruence. Qed.

Lemma pad2_compare a b :
  0 <= a < 100 -> 0 <= b < 100 ->
  String.compare (pad2 a) (pad2 b) = (a ?= b).
Proof.
  intros Ha Hb. apply comparison_eqb_eq.
  assert (H : all_below 100 (fun x => all_below 100 (pad2_compare_ok x)) = true)
    by (vm_compute; reflexivity).
  pose proof (all_below_spec _ _ H a ltac:(lia)) as H1. cbv beta in H1.
  exact (all_below_spec _ _ H1 b ltac:(lia)).
Qed.

Lemma pad4_compare a b :
  0 <= a < 10000 -> 0 <= b < 10000 ->
  String.compare (pad4 a) (pad4 b) = (a ?= b).
Proof.
  intros Ha Hb. unfold pad4.
  rewrite string_compare_app by reflexivity.
  rewrite !pad2_compare by (Z.div_mod_to_equations; lia).
  unfold lex.
  destruct (Z.compare_spec (a / 100) (b / 100));
    destruct (Z.compare_spec (a mod 100) (b mod 100));
    destruct (Z.compare_spec a b); try reflexivity;
    exfalso; Z.div_mod_to_equations; lia.
Qed.

Lemma ascii_compare_refl (c : ascii) : Ascii.compare c c = Eq.
Proof. unfold Ascii.compare. apply N.compare_refl. Qed.

Lemma append_empty (s : string) : (s ++ "")%string = s.
Proof. induction s as [|c s IH]; [reflexivity | cbn; rewrite IH; reflexivity]. Qed.

(** Python's order on the formatted timestamps is the order of the fields. *)
Lemma strftime_compare a b :
  valid a -> valid b ->
  String.compare (strftime a) (strftime b) = compare a b.
Proof.
  unfold valid, MINYEAR, MAXYEAR.
  intros (Hy & Hm & Hd & Hh & Hmi & Hs) (Hy' & Hm' & Hd' & Hh' & Hmi' & Hs').
  assert (Dd : day a <= 31 /\ day b <= 31).
  { rewrite dim_l_eq in Hd, Hd'. split.
    - destruct (month_cases _ Hm) as [E|[E|[E|[E|[E|[E|[E|[E|[E|[E|[E|E]]]]]]]]]]];
        rewrite E in Hd; destruct (_is_leap (year a)); eval_tables; lia.
    - destruct (month_cases _ Hm') as [E|[E|[E|[E|[E|[E|[E|[E|[E|[E|[E|E]]]]]]]]]]];
        rewrite E in Hd'; destruct (_is_leap (year b)); eval_tables; lia. }
  unfold strftime, compare. rewrite !append_empty.
  rewrite string_compare_app by reflexivity.
  rewrite pad4_compare by lia. f_equal.
  change ("-" ++ ?x)%string with (String "-" x).
  cbn [append String.compare]. rewrite ascii_compare_refl.
  rewrite string_compare_app by reflexivity.
  rewrite pad2_compare by lia. f_equal.
  cbn [append String.compare]. rewrite ascii_compare_refl.
  rewrite string_compare_app by reflexivity.
  rewrite pad2_compare by lia. f_equal.
  cbn [append String.compare]. rewrite ascii_compare_refl.
  rewrite string_compare_app by reflexivity.
  rewrite pad2_compare by lia. f_equal.
  cbn [append String.compare]. rewrite ascii_compare_refl.
  rewrite string_compare_app by reflexivity.
  rewrite pad2_compare by lia. f_equal.
  cbn [append String.compare]. rewrite ascii_compare_refl.
  apply pad2_compare; lia.
Qed.

(** Strictly later instants give strictly larger timestamps. *)
Lemma strftime_lt a b :
  valid a -> valid b -> to_seconds a < to_seconds b ->
  String.ltb (strftime a) (strftime b) = true.
Proof.
  intros Va Vb Hlt. unfold String.ltb.
  rewrite strftime_compare, compare_of_seconds by assumption. reflexivity.
Qed.

End DatetimeFacts.

(** ** Degrees, minutes, seconds *)

Lemma sign_abs (a : Q) : (sign a * Qabs a == a)%Q.
Proof.
  destruct a as [[|p|p] d]; unfold sign, Qabs, Qeq; simpl; lia.
Qed.

Lemma sign_cases (a : Q) :
  (a <= 0 -> sign a <= 0)%Q /\ (0 <= a -> 0 <= sign a)%Q.
Proof.
  destruct a as [[|p|p] d]; unfold sign, Qle; simpl; lia.
Qed.

Lemma divmod_spec (x y : Q) :
  (0 < y)%Q ->
  let '(q, r) := divmod x y in
  (x == q * y + r /\ 0 <= r /\ (0 <= x -> 0 <= q))%Q.
Proof.
  intros Hy. unfold divmod. cbv zeta.
  set (q := inject_Z (Qfloor (x / y))).
  assert (Hq : (q <= x / y)%Q) by apply Qfloor_le.
  assert (Hqy : (q * y <= x)%Q).
  { assert (E : (x == x / y * y)%Q) by (field; lra).
    apply Qle_trans with (x / y * y)%Q; [| rewrite <- E; apply Qle_refl].
    apply Qmult_le_compat_r; [exact Hq | lra]. }
  repeat split.
  - ring.
  - lra.
  - intros Hx. unfold q.
    assert (H1 : (0 <= x / y)%Q) by (apply Qle_shift_div_l; [exact Hy | lra]).
    apply Qfloor_resp_le in H1. change (Qfloor 0) with 0%Z in H1.
    change 0%Q with (inject_Z 0). rewrite <- Zle_Qle. exact H1.
Qed.

(** Over exact values, going through [Angle.dms()] and back is the
    identity; on floats it is not (see [Float64Facts.round_trip_example]). *)
Lemma dms_round_trip (a : Angle) : (_dms_to_dd (dms a) == a)%Q.
Proof.
  unfold dms, _sexagesimalize_to_float, divmod, _dms_to_dd. cbv zeta.
  set (q1 := inject_Z (Qfloor (Qabs a * 3600 / 60))).
  set (u := inject_Z (Qfloor (q1 / 60))).
  transitivity (sign a * Qabs a)%Q; [field | apply sign_abs].
Qed.

(** The components of [Angle.dms()] all carry the sign of the angle. *)
Lemma dms_components_signed (a : Angle) :
  let '(d, m, s) := dms a in
  ((a <= 0 -> d <= 0 /\ m <= 0 /\ s <= 0) /\
   (0 <= a -> 0 <= d /\ 0 <= m /\ 0 <= s))%Q.
Proof.
  unfold dms, _sexagesimalize_to_float.
  pose proof (divmod_spec (Qabs a * 3600) 60 ltac:(reflexivity)) as H1.
  destruct (divmod (Qabs a * 3600) 60) as [q1 secs].
  destruct H1 as (E1 & Hsecs & Hq1).
  pose proof (divmod_spec q1 60 ltac:(reflexivity)) as H2.
  destruct (divmod q1 60) as [units mins].
  destruct H2 as (E2 & Hmins & Hunits).
  pose proof (Qabs_nonneg a) as Habs.
  assert (0 <= q1)%Q as Hq1' by (apply Hq1; lra).
  specialize (Hunits Hq1').
  destruct (sign_cases a) as [Hneg Hpos].
  split; intros Ha.
  - specialize (Hneg Ha). repeat split; nra.
  - specialize (Hpos Ha). repeat split; nra.
Qed.

(** C1, as stated, fails: with non-negative minutes on negative degrees the
    conversion of (-33, 30, 0) is -32.5, not -33.5 -- in the rational model
    and on binary64 floats alike. *)
Lemma C1_counterexample :
  (_dms_to_dd (-33, 30, 0) == -32.5 /\ ~ _dms_to_dd (-33, 30, 0) == -33.5)%Q /\
  PrimFloat.eqb (Binary64._dms_to_dd Binary64.triple_33_30_0) Binary64.minus_32_5
  = true /\
  PrimFloat.eqb (Binary64._dms_to_dd Binary64.triple_33_30_0) Binary64.minus_33_5
  = false.
Proof.
  split; [split; [reflexivity | discriminate] |].
  split; vm_compute; reflexivity.
Qed.

(** C1, amended: [_dms_to_dd] is the plain sum of its components, each with
    its own sign.  With magnitudes [d], [m], [s], the triple [(-d, -m, -s)]
    -- the form in which [Angle.dms()] hands over a negative coordinate --
    converts to [-(d + m/60 + s/3600)], which is not positive, whereas on
    [(-d, m, s)] the minute and second contributions are added to [-d]. *)
Theorem C1_dms_to_dd_signed_components (d m s : Q) :
  (0 <= d -> 0 <= m -> 0 <= s ->
   _dms_to_dd (- d, - m, - s) == - (d + m / 60 + s / 3600) /\
   _dms_to_dd (- d, - m, - s) <= 0 /\
   _dms_to_dd (- d, m, s) == - d + (m / 60 + s / 3600))%Q.
Proof.
  intros Hd Hm Hs. unfold _dms_to_dd.
  assert (E : (- d + - m / 60 + - s / 3600 == - (d + m / 60 + s / 3600))%Q) by field.
  repeat split.
  - exact E.
  - rewrite E.
    assert (0 <= m / 60)%Q by (apply Qle_shift_div_l; [reflexivity | lra]).
    assert (0 <= s / 3600)%Q by (apply Qle_shift_div_l; [reflexivity | lra]).
    lra.
  - ring.
Qed.

Lemma C1_witness :
  ((0 <= 33 /\ 0 <= 30 /\ 0 <= 0) /\
   _dms_to_dd (- 33, - 30, - 0) == - (33 + 30 / 60 + 0 / 3600) /\
   _dms_to_dd (- 33, - 30, - 0) <= 0 /\
   _dms_to_dd (- 33, 30, 0) == - 33 + (30 / 60 + 0 / 3600))%Q.
Proof.
  split; [repeat split; discriminate |].
  apply (C1_dms_to_dd_signed_components 33 30 0); discriminate.
Defined.

(* ================================================================== *)
(** ** Binary64 rounding *)
(* ================================================================== *)

Module Float64Facts.
Import Float64.

Lemma rne_close (m : Q) : (Qabs (inject_Z (rne m) - m) <= 1 # 2)%Q.
Proof.
  unfold rne.
  pose proof (Qfloor_le m) as Hlo. pose proof (Qlt_floor m) as Hhi.
  rewrite inject_Z_plus in Hhi. change (inject_Z 1) with 1%Q in Hhi.
  set (f := Qfloor m) in *.
  apply Qabs_Qle_condition.
  destruct (Qcompare_spec (m - inject_Z f) (1 # 2)) as [E | L | G].
  - destruct (Z.even f); rewrite ?inject_Z_plus; change (inject_Z 1) with 1%Q; lra.
  - lra.
  - rewrite inject_Z_plus. change (inject_Z 1) with 1%Q. lra.
Qed.

Lemma two_pow_pos (e : Z) : (0 < 2 ^ e)%Q.
Proof. apply Qpower_0_lt. reflexivity. Qed.

Lemma ilog2_le (x : Q) : (0 < x)%Q -> (2 ^ ilog2 x <= x)%Q.
Proof.
  intros Hx. unfold ilog2.
  set (k := Z.log2 (Qnum x) - Z.log2 (Z.pos (Qden x))).
  destruct (Qle_bool (2 ^ k) x) eqn:E; [apply Qle_bool_iff; exact E |].
  destruct x as [n d]. unfold Qlt in Hx. cbn [Qnum Qden] in *.
  assert (Hn : 0 < n) by lia.
  pose proof (Z.log2_spec n Hn) as [Ln _].
  pose proof (Z.log2_spec (Z.pos d) eq_refl) as [_ Ud].
  pose proof (Z.log2_nonneg n) as Nn. pose proof (Z.log2_nonneg (Z.pos d)) as Nd.
  set (a := Z.log2 n) in *. set (b := Z.log2 (Z.pos d)) in *.
  replace (k - 1) with (a - Z.succ b) by (unfold k; lia).
  rewrite Qpower_minus by discriminate.
  change 2%Q with (inject_Z 2).
  rewrite <- !Zpower_Qpower by lia.
  apply Qle_shift_div_r.
  - change 0%Q with (inject_Z 0). rewrite <- Zlt_Qlt. apply Z.pow_pos_nonneg; lia.
  - unfold Qle, Qmult, inject_Z. cbn [Qnum Qden].
    rewrite !Z.mul_1_r, Pos.mul_1_r.
    apply Z.mul_le_mono_nonneg; try lia.
Qed.

Lemma round_error (x : Q) :
  (Qabs (round x - x) <= (1 # 2) * 2 ^ exponent x)%Q.
Proof.
  pose proof (two_pow_pos (exponent x)) as Hp.
  unfold round. destruct (Qeq_bool x 0) eqn:E0.
  - apply Qeq_bool_iff in E0.
    setoid_replace (0 - x)%Q with 0%Q by (rewrite E0; ring).
    apply Qmult_le_0_compat; [discriminate | apply Qlt_le_weak; exact Hp].
  - set (e := exponent x) in *.
    pose proof (rne_close (Qabs x / 2 ^ e)) as Hc.
    set (n := inject_Z (rne (Qabs x / 2 ^ e))) in *.
    apply Qabs_Qle_condition in Hc. destruct Hc as [Hc1 Hc2].
    assert (Ex : (x == sign x * (Qabs x / 2 ^ e) * 2 ^ e)%Q).
    { rewrite <- (sign_abs x) at 1. field. lra. }
    assert (Hs : sign x = 1%Q \/ sign x = (-1)%Q \/ sign x = 0%Q).
    { unfold sign. destruct (Qnum x); auto. }
    apply Qabs_Qle_condition.
    set (m := (Qabs x / 2 ^ e)%Q) in *. set (p := (2 ^ e)%Q) in *.
    destruct Hs as [S | [S | S]]; rewrite S in *; clearbody m n p; nra.
Qed.

Lemma Qabs_pos_nonzero (x : Q) : ~ (x == 0)%Q -> (0 < Qabs x)%Q.
Proof.
  destruct x as [[|p|p] d]; unfold Qeq, Qlt, Qabs; cbn; intros H; lia.
Qed.

Lemma exponent_small (x : Q) :
  (Qabs x <= 1048576)%Q -> ~ (x == 0)%Q -> exponent x <= -32.
Proof.
  intros Hb Hx. unfold exponent.
  pose proof (ilog2_le (Qabs x) (Qabs_pos_nonzero x Hx)) as Hl.
  assert (H : ilog2 (Qabs x) <= 20).
  { apply (Qpower_le_compat_l_inv 2); [| reflexivity].
    apply Qle_trans with (Qabs x); [exact Hl |].
    apply Qle_trans with 1048576%Q; [exact Hb | discriminate]. }
  lia.
Qed.

(** Below 2^20 in magnitude, rounding moves a value by at most 1e-9. *)
Lemma round_close (x : Q) :
  (Qabs x <= 1048576)%Q -> (Qabs (round x - x) <= 1 # 1000000000)%Q.
Proof.
  intros Hb.
  destruct (Qeq_dec x 0) as [E | N].
  - unfold round. rewrite (proj2 (Qeq_bool_iff x 0) E).
    setoid_replace (0 - x)%Q with 0%Q by (rewrite E; ring). discriminate.
  - apply Qle_trans with ((1 # 2) * 2 ^ exponent x)%Q; [apply round_error |].
    pose proof (exponent_small x Hb N) as He.
    pose proof (Qpower_le_compat_l 2 (exponent x) (-32) He ltac:(discriminate)) as Hp.
    apply Qle_trans with ((1 # 2) * 2 ^ (-32))%Q; [| discriminate].
    apply Qmult_le_l; [reflexivity | exact Hp].
Qed.


Lemma divmod_bounds (x y : Q) :
  (0 < y)%Q ->
  (x == fst (divmod x y) * y + snd (divmod x y) /\
   0 <= snd (divmod x y) /\ snd (divmod x y) < y)%Q.
Proof.
  intros Hy. unfold divmod. cbn [fst snd].
  set (q := inject_Z (Qfloor (x / y))).
  assert (Hq : (q <= x / y)%Q) by apply Qfloor_le.
  assert (Hq' : (x / y < q + 1)%Q).
  { pose proof (Qlt_floor (x / y)) as H. rewrite inject_Z_plus in H. exact H. }
  assert (E : (x == x / y * y)%Q) by (field; lra).
  assert (H1 : (q * y <= x / y * y)%Q) by (apply Qmult_le_compat_r; lra).
  assert (H2 : (x / y * y < (q + 1) * y)%Q) by (apply Qmult_lt_compat_r; lra).
  repeat split; [ring | lra | lra].
Qed.

Ltac round_step x H :=
  let B := fresh "B" in
  assert (B : (Qabs x <= 1048576)%Q)
    by (apply Qabs_Qle_condition; split; lra);
  pose proof (round_close x B) as H;
  apply Qabs_Qle_condition in H; destruct H.

(** In binary64 the round trip through [dms] and [_dms_to_dd] is not the
    identity, but it moves a value of magnitude up to 180 by far less than
    1e-6. *)
Lemma round_trip_close (d : Q) :
  (-180 <= d <= 180)%Q -> (Qabs (_dms_to_dd (dms d) - d) <= 1e-6)%Q.
Proof.
  intros Hd.
  unfold dms, _sexagesimalize_to_float, _dms_to_dd, mul, div, add.
  pose proof (sign_abs d) as Esg.
  assert (Ha : (0 <= Qabs d <= 180)%Q).
  { split; [apply Qabs_nonneg | apply Qabs_Qle_condition; lra]. }
  set (a := Qabs d) in *.
  round_step (a * 3600)%Q Ht.
  set (T := round (a * 3600)) in *.
  pose proof (divmod_bounds T 60 ltac:(reflexivity)) as (E1 & S0 & S1).
  destruct (divmod T 60) as [q1 secs]. cbn [fst snd] in *.
  pose proof (divmod_bounds q1 60 ltac:(reflexivity)) as (E2 & M0 & M1).
  destruct (divmod q1 60) as [units mins]. cbn [fst snd] in *.
  assert (Hs : sign d = 1%Q \/ sign d = (-1)%Q \/ sign d = 0%Q).
  { unfold sign. destruct (Qnum d); auto. }
  apply Qle_trans with (1 # 1000000)%Q; [| discriminate].
  apply Qabs_Qle_condition.
  destruct Hs as [S | [S | S]]; rewrite S in *; clear S.
  - round_step (1 * units)%Q HD. set (D := round (1 * units)) in *.
    round_step (1 * mins)%Q HM. set (M := round (1 * mins)) in *.
    round_step (1 * secs)%Q HS. set (Sx := round (1 * secs)) in *.
    assert (EM : (M / 60 * 60 == M)%Q) by field.
    assert (ES : (Sx / 3600 * 3600 == Sx)%Q) by field.
    set (M60 := (M / 60)%Q) in *. set (S3600 := (Sx / 3600)%Q) in *.
    round_step M60 Hq. set (q := round M60) in *.
    round_step (D + q)%Q Hp. set (p := round (D + q)) in *.
    round_step S3600 Hw. set (w := round S3600) in *.
    round_step (p + w)%Q Hr.
    split; lra.
  - round_step (-1 * units)%Q HD. set (D := round (-1 * units)) in *.
    round_step (-1 * mins)%Q HM. set (M := round (-1 * mins)) in *.
    round_step (-1 * secs)%Q HS. set (Sx := round (-1 * secs)) in *.
    assert (EM : (M / 60 * 60 == M)%Q) by field.
    assert (ES : (Sx / 3600 * 3600 == Sx)%Q) by field.
    set (M60 := (M / 60)%Q) in *. set (S3600 := (Sx / 3600)%Q) in *.
    round_step M60 Hq. set (q := round M60) in *.
    round_step (D + q)%Q Hp. set (p := round (D + q)) in *.
    round_step S3600 Hw. set (w := round S3600) in *.
    round_step (p + w)%Q Hr.
    split; lra.
  - round_step (0 * units)%Q HD. set (D := round (0 * units)) in *.
    round_step (0 * mins)%Q HM. set (M := round (0 * mins)) in *.
    round_step (0 * secs)%Q HS. set (Sx := round (0 * secs)) in *.
    assert (EM : (M / 60 * 60 == M)%Q) by field.
    assert (ES : (Sx / 3600 * 3600 == Sx)%Q) by field.
    set (M60 := (M / 60)%Q) in *. set (S3600 := (Sx / 3600)%Q) in *.
    round_step M60 Hq. set (q := round M60) in *.
    round_step (D + q)%Q Hp. set (p := round (D + q)) in *.
    round_step S3600 Hw. set (w := round S3600) in *.
    round_step (p + w)%Q Hr.
    split; lra.
Qed.


(** The rounding agrees with the primitive binary64 operations: products,
    quotients and sums, a subnormal result, and both directions of a tie. *)
Lemma round_agrees_with_binary64 :
  (of_float Binary64.angle_a_seconds == mul (of_float Binary64.angle_a) 3600 /\
   of_float Binary64.tenth_plus_fifth
   == add (of_float Binary64.tenth) (of_float Binary64.fifth) /\
   of_float Binary64.one_third == div 1 3 /\
   of_float Binary64.tiny_seconds == mul (of_float Binary64.tiny) 3600 /\
   of_float Binary64.tiny_quotient == div (of_float Binary64.tiny) 3600 /\
   of_float Binary64.tie_down == add 9007199254740992 1 /\
   of_float Binary64.tie_up == add 9007199254740994 1 /\
   round (of_float Binary64.angle_a) == of_float Binary64.angle_a)%Q.
Proof.
  repeat split; apply Qeq_bool_iff; vm_compute; reflexivity.
Qed.

(** The round trip is not the identity: 125.076145 comes back as
    125.07614499999998. *)
Lemma round_trip_example :
  (_dms_to_dd (dms (of_float Binary64.angle_a)) == of_float Binary64.angle_b /\
   ~ _dms_to_dd (dms (of_float Binary64.angle_a)) == of_float Binary64.angle_a)%Q.
Proof.
  split.
  - apply Qeq_bool_iff. vm_compute. reflexivity.
  - intros H. apply Qeq_bool_iff in H. vm_compute in H. discriminate.
Qed.

End Float64Facts.

(** C8: for every decimal degree value in the latitude or the longitude
    range, converting to a DMS triple with [Angle.dms()] and back with
    [_dms_to_dd], each float operation rounding to binary64, reproduces the
    value within 1e-6 degrees. *)
Theorem C8_dms_round_trip (d : Q) :
  ((-90 <= d <= 90 \/ -180 <= d <= 180) ->
   Qabs (Float64._dms_to_dd (Float64.dms d) - d) <= 1e-6)%Q.
Proof.
  intros H. apply Float64Facts.round_trip_close.
  destruct H as [[H1 H2] | H]; [split; lra | exact H].
Qed.

Lemma C8_witness :
  ((-90 <= Float64.of_float Binary64.angle_a <= 90
    \/ -180 <= Float64.of_float Binary64.angle_a <= 180) /\
   Qabs (Float64._dms_to_dd (Float64.dms (Float64.of_float Binary64.angle_a))
         - Float64.of_float Binary64.angle_a) <= 1e-6)%Q.
Proof.
  assert (H : (-90 <= Float64.of_float Binary64.angle_a <= 90
               \/ -180 <= Float64.of_float Binary64.angle_a <= 180)%Q).
  { right. split; apply Qle_bool_iff; vm_compute; reflexivity. }
  split; [exact H | exact (C8_dms_round_trip _ H)].
Defined.

(* ================================================================== *)
(** ** The loop of [_get_sat_posn] *)
(* ================================================================== *)

Lemma int_of_seconds (s : Q) :
  (0 <= s)%Q -> (s < 60)%Q -> 0 <= int s <= 59.
Proof.
  destruct s as [n d]. unfold Qle, Qlt, int. cbn [Qnum Qden]. intros H0 H60.
  rewrite Z.quot_div_nonneg by lia.
  split; [apply Z.div_pos; lia|].
  assert (n / Z.pos d < 60) by (apply Z.div_lt_upper_bound; lia). lia.
Qed.

Lemma int_floor (s : Q) :
  (0 <= s)%Q -> (inject_Z (int s) <= s /\ s < inject_Z (int s) + 1)%Q.
Proof.
  intros H0.
  assert (E : int s = Qfloor s).
  { destruct s as [n d]. unfold Qle in H0. unfold int, Qfloor. cbn [Qnum Qden] in *.
    apply Z.quot_div_nonneg; lia. }
  rewrite E. split; [apply Qfloor_le|].
  pose proof (Qlt_floor s) as H. rewrite inject_Z_plus in H. exact H.
Qed.

Lemma clock_ok_fields (t : utc_tuple) :
  clock_ok t = true ->
  2 <= t0 t <= 9998 /\ 1 <= t1 t <= 12 /\
  1 <= t2 t <= Datetime._days_in_month (t0 t) (t1 t) /\
  0 <= t3 t <= 23 /\ 0 <= t4 t <= 59 /\ (0 <= t5 t)%Q /\ (t5 t < 60)%Q.
Proof.
  unfold clock_ok. rewrite !andb_true_iff, negb_true_iff, !Z.leb_le.
  intros H. repeat match goal with H : _ /\ _ |- _ => destruct H end.
  assert (0 <= t5 t)%Q by (apply Qle_bool_iff; assumption).
  assert (t5 t < 60)%Q.
  { apply Qnot_le_lt. intros C. apply Qle_bool_iff in C. congruence. }
  repeat split; assumption.
Qed.

Lemma clock_ok_valid (t : utc_tuple) :
  clock_ok t = true -> Datetime.valid (date_of t).
Proof.
  intros H. destruct (clock_ok_fields t H) as (Hy & Hm & Hd & Hh & Hmi & Hs0 & Hs60).
  pose proof (int_of_seconds _ Hs0 Hs60).
  unfold Datetime.valid, date_of, Datetime.MINYEAR, Datetime.MAXYEAR. cbn.
  repeat split; lia.
Qed.

(** With a sound clock reading the constructor call of line 63 succeeds. *)
Lemma clock_ok_new (t : utc_tuple) :
  clock_ok t = true ->
  Datetime.new (t0 t) (t1 t) (t2 t) (t3 t) (t4 t) (int (t5 t)) = inr (date_of t).
Proof.
  intros H. destruct (clock_ok_fields t H) as (Hy & Hm & Hd & Hh & Hmi & Hs0 & Hs60).
  pose proof (int_of_seconds _ Hs0 Hs60) as Hs.
  unfold Datetime.new, Datetime._check_date_fields, Datetime._check_time_fields,
    Datetime.MINYEAR, Datetime.MAXYEAR.
  repeat match goal with
  | |- context [negb (?a && ?b)] =>
      replace (a && b) with true
        by (symmetry; apply andb_true_iff; rewrite !Z.leb_le; lia);
      cbn [negb]
  end.
  reflexivity.
Qed.

(** Within a day of a sound clock reading, [date + timedelta(minutes=m)]
    succeeds, is a valid datetime, and denotes the instant [m] minutes
    from [date]. *)
Lemma date_at_spec (t : utc_tuple) (m : Z) :
  clock_ok t = true -> -1440 <= m <= 1440 ->
  Datetime.add (date_of t) (Datetime.new_timedelta 0 0 m 0) = inr (date_at t m) /\
  Datetime.valid (date_at t m) /\
  Datetime.to_seconds (date_at t m) = Datetime.to_seconds (date_of t) + 60 * m.
Proof.
  intros H Hm.
  pose proof (clock_ok_valid t H) as V.
  destruct (clock_ok_fields t H) as (Hy & Hmo & Hd & Hh & Hmi & Hs0 & Hs60).
  pose proof (int_of_seconds _ Hs0 Hs60) as Hs.
  pose proof (DatetimeFacts.valid_date_ordinal _ _ _ Hmo Hd Hy) as Ho.
  destruct (DatetimeFacts.add_spec (date_of t) (Datetime.new_timedelta 0 0 m 0) V)
    as (dt' & E & V' & S').
  - rewrite DatetimeFacts.new_timedelta_total.
    unfold Datetime.to_seconds, Datetime.toordinal, date_of, Datetime._MAXORDINAL.
    cbn [Datetime.year Datetime.month Datetime.day Datetime.hour Datetime.minute
         Datetime.second]. lia.
  - unfold date_at. rewrite E. rewrite DatetimeFacts.new_timedelta_total in S'.
    repeat split; try assumption; try apply V'. lia.
Qed.

Section Track.

Variable env : Env.
Variable sat : satellite env.

Local Abbreviation t := (ts_now_utc env).

(** One iteration that succeeds appends one row and logs one call. *)
Lemma sample_ok (m : Z) (p : positions) (tr : list event) (g : geocentric env) :
  clock_ok t = true -> -1440 <= m <= 1440 ->
  sat_at env sat (new_t t m) = inr g ->
  sample env sat t (date_of t) m p tr
  = (inr (append_rows p (rows env sat [m])), tr ++ [Propagate (new_t t m)]).
Proof.
  intros Hc Hm Hg.
  destruct (date_at_spec t m Hc Hm) as (Eadd & _ & _).
  unfold sample, bind, lift, emit, ret. rewrite Eadd.
  cbn [col_name col_lat col_lon col_datetime]. rewrite Hg.
  unfold append_rows, rows, latlon_at, stamp_at. cbn [map fst snd]. rewrite Hg.
  destruct (latlon_of env g) as [lat lon]. reflexivity.
Qed.

Lemma append_rows_assoc (p : positions) (l1 l2 : list Z) :
  append_rows (append_rows p (rows env sat l1)) (rows env sat l2)
  = append_rows p (rows env sat (l1 ++ l2)).
Proof.
  unfold append_rows, rows. cbn [col_name col_lat col_lon col_datetime].
  rewrite !map_app, <- !app_assoc. reflexivity.
Qed.

(** The whole loop, when every iteration succeeds. *)
Lemma loop_ok (l : list Z) :
  clock_ok t = true ->
  (forall m, In m l -> -1440 <= m <= 1440) ->
  (forall m, In m l -> exists g, sat_at env sat (new_t t m) = inr g) ->
  forall p tr,
    for_each l (sample env sat t (date_of t)) p tr
    = (inr (append_rows p (rows env sat l)),
       tr ++ map (fun m => Propagate (new_t t m)) l).
Proof.
  intros Hc. induction l as [|m l IH]; intros Hb Hg p tr.
  - cbn. unfold ret, append_rows, rows. cbn. rewrite !app_nil_r.
    destruct p; reflexivity.
  - cbn [for_each]. unfold bind.
    destruct (Hg m (or_introl eq_refl)) as [g Eg].
    rewrite (sample_ok m p tr g Hc (Hb m (or_introl eq_refl)) Eg).
    rewrite IH.
    + rewrite append_rows_assoc, <- app_assoc. reflexivity.
    + intros m' Hin. apply Hb. right. exact Hin.
    + intros m' Hin. apply Hg. right. exact Hin.
Qed.

(** An iteration whose propagation raises makes the loop raise. *)
Lemma sample_fails (m : Z) (p : positions) (tr : list event) (e : exn) :
  sat_at env sat (new_t t m) = inl e ->
  exists e' tr', sample env sat t (date_of t) m p tr = (inl e', tr').
Proof.
  intros He. unfold sample, bind, lift, emit, ret.
  destruct (Datetime.add (date_of t) (Datetime.new_timedelta 0 0 m 0)) as [e0|d].
  - eauto.
  - rewrite He. eauto.
Qed.

Lemma loop_fails (l : list Z) (m : Z) (e : exn) :
  In m l -> sat_at env sat (new_t t m) = inl e ->
  forall p tr, exists e' tr',
    for_each l (sample env sat t (date_of t)) p tr = (inl e', tr').
Proof.
  intros Hin He. induction l as [|x l IH]; intros p tr; [contradiction|].
  cbn [for_each]. unfold bind.
  destruct (sample env sat t (date_of t) x p tr) as [[e0|p'] tr'] eqn:Ex.
  - eauto.
  - destruct Hin as [-> | Hin].
    + destruct (sample_fails m p tr e He) as (e' & tr'' & E). congruence.
    + apply IH. exact Hin.
Qed.

End Track.

(* ================================================================== *)
(** ** [_get_sat_posn] as a whole *)
(* ================================================================== *)

Lemma In_range (lo hi m : Z) : In m (range lo hi) <-> lo <= m < hi.
Proof.
  unfold range. rewrite in_map_iff. split.
  - intros (i & <- & Hi). apply in_seq in Hi. lia.
  - intros H. exists (Z.to_nat (m - lo)). split; [lia|]. apply in_seq. lia.
Qed.

Lemma range_length (lo hi : Z) : List.length (range lo hi) = Z.to_nat (hi - lo).
Proof. unfold range. rewrite length_map, length_seq. reflexivity. Qed.

Lemma range_sorted (lo hi : Z) : StronglySorted Z.lt (range lo hi).
Proof.
  unfold range. generalize (Z.to_nat (hi - lo)) as n. generalize 0%nat as start.
  intros start n. revert start.
  induction n as [|n IH]; intros start; cbn [seq map]; constructor.
  - apply IH.
  - apply Forall_forall. intros x Hx. apply in_map_iff in Hx as (i & <- & Hi).
    apply in_seq in Hi. lia.
Qed.

Lemma map_sorted {A B : Type} (RA : A -> A -> Prop) (RB : B -> B -> Prop)
    (f : A -> B) (l : list A) :
  StronglySorted RA l ->
  (forall a b, In a l -> In b l -> RA a b -> RB (f a) (f b)) ->
  StronglySorted RB (map f l).
Proof.
  induction 1 as [|a l Hs IH Hall]; intros Hf; cbn [map]; constructor.
  - apply IH. intros x y Hx Hy. apply Hf; right; assumption.
  - apply Forall_forall. intros y Hy. apply in_map_iff in Hy as (x & <- & Hx).
    apply Hf; [left; reflexivity | right; exact Hx |].
    rewrite Forall_forall in Hall. apply Hall. exact Hx.
Qed.

Lemma slice_map {A B : Type} (f : A -> B) (l : list A) (a b : nat) :
  slice (map f l) a b = map f (slice l a b).
Proof. unfold slice. rewrite skipn_map, firstn_map. reflexivity. Qed.

(** The data frame and the call trace of a run in which the constructor
    and every propagation succeed. *)
Lemma get_sat_posn_ok (env : Env) (line1 line2 : string) (rest : list string)
    (sat : satellite env) :
  EarthSatellite env line1 line2 "ISS" = inr sat ->
  clock_ok (ts_now_utc env) = true ->
  (forall m, In m (range (-90) 90) ->
             exists g, sat_at env sat (new_t (ts_now_utc env) m) = inr g) ->
  run (_get_sat_posn env (line1 :: line2 :: rest))
  = (inr (rows env sat (range (-90) 90)), full_trace (ts_now_utc env) line1 line2).
Proof.
  intros Hsat Hc Hg.
  unfold run, _get_sat_posn, bind, lift, emit. cbn [index nth_error app].
  rewrite Hsat, (clock_ok_new _ Hc).
  rewrite (loop_ok env sat (range (-90) 90) Hc).
  - unfold pd_DataFrame, append_rows, rows.
    cbn [col_name col_lat col_lon col_datetime app].
    rewrite !length_map, !Nat.eqb_refl. reflexivity.
  - intros m Hm. apply In_range in Hm. lia.
  - exact Hg.
Qed.

(** A run in which the constructor raises: nothing else happens. *)
Lemma get_sat_posn_rejected (env : Env) (line1 line2 : string) (rest : list string)
    (e : exn) :
  EarthSatellite env line1 line2 "ISS" = inl e ->
  run (_get_sat_posn env (line1 :: line2 :: rest)) = (inl e, [Construct line1 line2]).
Proof.
  intros Hsat. unfold run, _get_sat_posn, bind, lift, emit. cbn [index nth_error app].
  rewrite Hsat. reflexivity.
Qed.

(** A run in which some propagation raises: no data frame comes back. *)
Lemma get_sat_posn_diverged (env : Env) (line1 line2 : string) (rest : list string)
    (sat : satellite env) (m : Z) (e : exn) :
  EarthSatellite env line1 line2 "ISS" = inr sat ->
  In m (range (-90) 90) ->
  sat_at env sat (new_t (ts_now_utc env) m) = inl e ->
  exists e' tr, run (_get_sat_posn env (line1 :: line2 :: rest)) = (inl e', tr).
Proof.
  intros Hsat Hm He.
  unfold run, _get_sat_posn, bind, lift, emit. cbn [index nth_error app].
  rewrite Hsat.
  destruct (Datetime.new _ _ _ _ _ _) as [e0|date] eqn:Enew; [eauto|].
  assert (date = date_of (ts_now_utc env)) as ->.
  { unfold Datetime.new in Enew.
    destruct (Datetime._check_date_fields _ _ _); [discriminate|].
    destruct (Datetime._check_time_fields _ _ _); [discriminate|].
    injection Enew as <-. reflexivity. }
  destruct (loop_fails env sat (range (-90) 90) m e Hm He (mkpos [] [] [] [])
              [Construct line1 line2]) as (e' & tr' & E).
  rewrite E. eauto.
Qed.

(** [_pull_tle] logs nothing. *)
Lemma pull_tle_trace (env : Env) (tr : list event) :
  snd (_pull_tle env tr) = tr.
Proof.
  unfold _pull_tle, bind, lift, raise, ret.
  repeat match goal with
  | |- context [match ?x with inl _ => _ | inr _ => _ end] => destruct x
  | |- context [if ?b then _ else _] => destruct b
  | |- context [match ?l with [] => _ | _ :: _ => _ end] => destruct l
  | _ => reflexivity
  end.
Qed.

(* ================================================================== *)
(** ** The ground track: size, order, instants *)
(* ================================================================== *)

Lemma demo_all_calls_succeed :
  all_calls_succeed demo_env demo_line1 demo_line2 tt.
Proof.
  split; [reflexivity | split; [reflexivity |]].
  intros m _. eexists. reflexivity.
Qed.

(** All sample instants are built from the day of the clock reading; their
    seconds are those of the reference instant shifted by whole minutes. *)
Lemma new_t_shift (t : utc_tuple) (m : Z) :
  time_day (new_t t m) = time_day (reference_instant t) /\
  (time_seconds (new_t t m)
   == time_seconds (reference_instant t) + inject_Z (60 * m))%Q.
Proof.
  unfold new_t, reference_instant, ts_utc. cbn [time_day time_seconds].
  split; [reflexivity |].
  rewrite !inject_Z_plus, !inject_Z_mult, !inject_Z_plus. ring.
Qed.

(** On the uniform scale the sample instant is [m] minutes from the
    reference instant, whatever the leap-second table. *)
Lemma new_t_elapsed (leap : Z -> Z) (t : utc_tuple) (m : Z) :
  (elapsed leap (new_t t m)
   == elapsed leap (reference_instant t) + inject_Z (60 * m))%Q.
Proof.
  destruct (new_t_shift t m) as [Ed Es]. unfold elapsed. rewrite Ed, Es. ring.
Qed.

(** The instant of a sample against the instant its timestamp denotes:
    they differ by the fractional seconds of the clock reading and by the
    leap seconds inserted between the day of the reading and the day of
    the timestamp. *)
Lemma stamp_offset (leap : Z -> Z) (t : utc_tuple) (m : Z) :
  clock_ok t = true -> -1440 <= m <= 1440 ->
  (elapsed leap (new_t t m) - civil_instant leap (date_at t m)
   == (t5 t - inject_Z (int (t5 t)))
      - (inject_Z (leap (Datetime.toordinal (date_at t m)))
         - inject_Z (leap (Datetime.toordinal (date_of t)))))%Q.
Proof.
  intros Hc Hm.
  destruct (date_at_spec t m Hc Hm) as (_ & _ & E).
  assert (Eo : Datetime._ymd2ord (t0 t) (t1 t) (t2 t) = Datetime.toordinal (date_of t))
    by reflexivity.
  unfold civil_instant. rewrite E.
  unfold elapsed, new_t, ts_utc. cbn [time_day time_seconds]. rewrite Eo.
  unfold Datetime.to_seconds.
  change (Datetime.hour (date_of t)) with (t3 t).
  change (Datetime.minute (date_of t)) with (t4 t).
  change (Datetime.second (date_of t)) with (int (t5 t)).
  generalize (leap (Datetime.toordinal (date_at t m))) as L1.
  generalize (leap (Datetime.toordinal (date_of t))) as L0.
  generalize (Datetime.toordinal (date_of t)) as day. intros day L0 L1.
  repeat (rewrite inject_Z_plus || rewrite inject_Z_mult).
  ring.
Qed.

Lemma clock_fraction (t : utc_tuple) :
  clock_ok t = true ->
  (0 <= t5 t - inject_Z (int (t5 t)) /\ t5 t - inject_Z (int (t5 t)) < 1)%Q.
Proof.
  intros Hc.
  destruct (clock_ok_fields t Hc) as (_ & _ & _ & _ & _ & Hs0 & _).
  destruct (int_floor _ Hs0) as [F1 F2]. split; lra.
Qed.

(** C2: with the window [range(-90, 90)] the build returns exactly 180
    rows, one per offset from -90 to 89 in this order, and the timestamps of
    the rows are strictly increasing (as Python compares the strings). *)
Theorem C2_window_complete (env : Env) (line1 line2 : string) (sat : satellite env) :
  all_calls_succeed env line1 line2 sat ->
  exists df,
    fst (run (_get_sat_posn env [line1; line2])) = inr df /\
    List.length (col_name df) = 180%nat /\
    List.length (col_lat df) = 180%nat /\
    List.length (col_lon df) = 180%nat /\
    List.length (col_datetime df) = 180%nat /\
    col_datetime df = map (stamp_at (ts_now_utc env)) (range (-90) 90) /\
    StronglySorted str_lt (col_datetime df).
Proof.
  intros (Hsat & Hc & Hg).
  exists (rows env sat (range (-90) 90)).
  rewrite (get_sat_posn_ok env line1 line2 [] sat Hsat Hc Hg).
  unfold rows. cbn [fst col_name col_lat col_lon col_datetime].
  rewrite !length_map, range_length.
  repeat split; try reflexivity.
  apply (map_sorted Z.lt); [apply range_sorted|].
  intros a b Ha Hb Hab. apply In_range in Ha, Hb.
  destruct (date_at_spec (ts_now_utc env) a Hc ltac:(lia)) as (_ & Va & Ea).
  destruct (date_at_spec (ts_now_utc env) b Hc ltac:(lia)) as (_ & Vb & Eb).
  apply DatetimeFacts.strftime_lt; [exact Va | exact Vb | lia].
Qed.

Lemma C2_witness :
  all_calls_succeed demo_env demo_line1 demo_line2 tt /\
  exists df,
    fst (run (_get_sat_posn demo_env [demo_line1; demo_line2])) = inr df /\
    List.length (col_name df) = 180%nat /\
    List.length (col_lat df) = 180%nat /\
    List.length (col_lon df) = 180%nat /\
    List.length (col_datetime df) = 180%nat /\
    col_datetime df = map (stamp_at (ts_now_utc demo_env)) (range (-90) 90) /\
    StronglySorted str_lt (col_datetime df).
Proof.
  split; [exact demo_all_calls_succeed |].
  exact (C2_window_complete demo_env demo_line1 demo_line2 tt demo_all_calls_succeed).
Defined.

(** C4, as stated, fails, in two ways.  With a clock reading of
    12:30:30.5 the state is propagated, for offset 0, at 12:30:30.5, while
    the timestamp of that sample denotes 12:30:30.  And with a clock reading
    of 2016-12-31 23:30:00, half an hour before a leap second, the sample of
    offset 60 is propagated 3600 seconds after the reference instant, one
    second before the instant 2017-01-01 00:30:00 that its timestamp
    denotes. *)
Lemma C4_counterexample :
  (exists df,
     fst (run (_get_sat_posn demo_env [demo_line1; demo_line2])) = inr df /\
     nth_error (range (-90) 90) 90 = Some 0 /\
     nth_error (snd (run (_get_sat_posn demo_env [demo_line1; demo_line2]))) 91
       = Some (Propagate (new_t demo_now 0)) /\
     nth_error (col_datetime df) 90 = Some "2023-06-15T12:30:30"%string /\
     Datetime.strftime (date_at demo_now 0) = "2023-06-15T12:30:30"%string /\
     (elapsed leap_table_2017 (new_t demo_now 0)
      == civil_instant leap_table_2017 (date_at demo_now 0) + 0.5)%Q /\
     ~ (elapsed leap_table_2017 (new_t demo_now 0)
        == civil_instant leap_table_2017 (date_at demo_now 0))%Q) /\
  (exists df,
     fst (run (_get_sat_posn new_year_env [demo_line1; demo_line2])) = inr df /\
     nth_error (range (-90) 90) 150 = Some 60 /\
     nth_error (snd (run (_get_sat_posn new_year_env [demo_line1; demo_line2]))) 151
       = Some (Propagate (new_t new_year_now 60)) /\
     nth_error (col_datetime df) 150 = Some "2017-01-01T00:30:00"%string /\
     Datetime.strftime (date_at new_year_now 60) = "2017-01-01T00:30:00"%string /\
     (elapsed leap_table_2017 (new_t new_year_now 60)
      == elapsed leap_table_2017 (reference_instant new_year_now) + 3600)%Q /\
     (elapsed leap_table_2017 (new_t new_year_now 60)
      == civil_instant leap_table_2017 (date_at new_year_now 60) - 1)%Q /\
     ~ (elapsed leap_table_2017 (new_t new_year_now 60)
        == civil_instant leap_table_2017 (date_at new_year_now 60))%Q).
Proof.
  split.
  - eexists. split; [vm_compute; reflexivity |].
    repeat split; try (vm_compute; reflexivity).
    vm_compute. discriminate.
  - eexists. split; [vm_compute; reflexivity |].
    repeat split; try (vm_compute; reflexivity).
    vm_compute. discriminate.
Qed.

(** C4, amended: for every offset [m] of the window the state is
    propagated at the instant [m] minutes of elapsed time after the
    reference instant (the minute field is handed over as [t[4] + m] and
    counts on from the day of the clock reading).  The timestamp of the
    sample is the calendar sum [date + m minutes] with the seconds cut to
    whole seconds: the propagation instant is the instant the timestamp
    denotes, plus the fractional seconds of the clock reading (less than
    one second), minus one second for every leap second inserted between
    the day of the clock reading and the day of the timestamp.  When no
    leap second lies between the two days, the timestamp is the propagation
    instant cut to the whole second.  This holds for every leap-second
    table. *)
Theorem C4_sample_instants (env : Env) (line1 line2 : string) (sat : satellite env)
    (leap : Z -> Z) :
  all_calls_succeed env line1 line2 sat ->
  let t := ts_now_utc env in
  snd (run (_get_sat_posn env [line1; line2]))
    = Construct line1 line2 :: map (fun m => Propagate (new_t t m)) (range (-90) 90) /\
  (exists df,
     fst (run (_get_sat_posn env [line1; line2])) = inr df /\
     col_datetime df
       = map (fun m => Datetime.strftime (date_at t m)) (range (-90) 90)) /\
  (0 <= t5 t - inject_Z (int (t5 t)) /\ t5 t - inject_Z (int (t5 t)) < 1)%Q /\
  forall m, In m (range (-90) 90) ->
    (elapsed leap (new_t t m)
     == elapsed leap (reference_instant t) + inject_Z (60 * m))%Q /\
    (elapsed leap (new_t t m)
     == civil_instant leap (date_at t m)
        + (t5 t - inject_Z (int (t5 t)))
        - (inject_Z (leap (Datetime.toordinal (date_at t m)))
           - inject_Z (leap (Datetime.toordinal (date_of t)))))%Q /\
    (leap (Datetime.toordinal (date_at t m)) = leap (Datetime.toordinal (date_of t)) ->
     (civil_instant leap (date_at t m) <= elapsed leap (new_t t m) /\
      elapsed leap (new_t t m) < civil_instant leap (date_at t m) + 1)%Q).
Proof.
  intros (Hsat & Hc & Hg) t.
  rewrite (get_sat_posn_ok env line1 line2 [] sat Hsat Hc Hg).
  split; [reflexivity |]. split; [eexists; split; reflexivity |].
  pose proof (clock_fraction t Hc) as Hfrac.
  split; [exact Hfrac |].
  intros m Hm. apply In_range in Hm.
  pose proof (stamp_offset leap t m Hc ltac:(lia)) as Hoff.
  split; [apply new_t_elapsed |]. split.
  - lra.
  - intros El. rewrite El in Hoff. split; lra.
Qed.

Lemma C4_witness :
  all_calls_succeed new_year_env demo_line1 demo_line2 tt /\
  let env := new_year_env in
  let leap := leap_table_2017 in
  let t := ts_now_utc env in
  snd (run (_get_sat_posn env [demo_line1; demo_line2]))
    = Construct demo_line1 demo_line2
      :: map (fun m => Propagate (new_t t m)) (range (-90) 90) /\
  (exists df,
     fst (run (_get_sat_posn env [demo_line1; demo_line2])) = inr df /\
     col_datetime df
       = map (fun m => Datetime.strftime (date_at t m)) (range (-90) 90)) /\
  (0 <= t5 t - inject_Z (int (t5 t)) /\ t5 t - inject_Z (int (t5 t)) < 1)%Q /\
  forall m, In m (range (-90) 90) ->
    (elapsed leap (new_t t m)
     == elapsed leap (reference_instant t) + inject_Z (60 * m))%Q /\
    (elapsed leap (new_t t m)
     == civil_instant leap (date_at t m)
        + (t5 t - inject_Z (int (t5 t)))
        - (inject_Z (leap (Datetime.toordinal (date_at t m)))
           - inject_Z (leap (Datetime.toordinal (date_of t)))))%Q /\
    (leap (Datetime.toordinal (date_at t m)) = leap (Datetime.toordinal (date_of t)) ->
     (civil_instant leap (date_at t m) <= elapsed leap (new_t t m) /\
      elapsed leap (new_t t m) < civil_instant leap (date_at t m) + 1)%Q).
Proof.
  assert (H : all_calls_succeed new_year_env demo_line1 demo_line2 tt).
  { split; [reflexivity | split; [reflexivity |]]. intros m _. eexists. reflexivity. }
  split; [exact H |].
  exact (C4_sample_instants new_year_env demo_line1 demo_line2 tt leap_table_2017 H).
Defined.

(** C7: the row of offset 0 (row 90) carries the reference instant as its
    timestamp: year, month, day, hour and minute are those of the clock
    reading, the seconds are its whole seconds. *)
Theorem C7_current_timestamp (env : Env) (line1 line2 : string) (sat : satellite env) :
  all_calls_succeed env line1 line2 sat ->
  let t := ts_now_utc env in
  nth_error (range (-90) 90) 90 = Some 0 /\
  exists df,
    fst (run (_get_sat_posn env [line1; line2])) = inr df /\
    nth_error (col_datetime df) 90
    = Some (Datetime.pad4 (t0 t) ++ "-" ++ Datetime.pad2 (t1 t) ++ "-"
            ++ Datetime.pad2 (t2 t) ++ "T" ++ Datetime.pad2 (t3 t) ++ ":"
            ++ Datetime.pad2 (t4 t) ++ ":" ++ Datetime.pad2 (int (t5 t)))%string.
Proof.
  intros (Hsat & Hc & Hg) t. split; [reflexivity |].
  exists (rows env sat (range (-90) 90)).
  rewrite (get_sat_posn_ok env line1 line2 [] sat Hsat Hc Hg).
  split; [reflexivity |].
  unfold rows. cbn [col_datetime]. rewrite nth_error_map.
  change (nth_error (range (-90) 90) 90) with (Some 0). cbn [option_map].
  unfold stamp_at, date_at.
  rewrite (DatetimeFacts.add_zero _ (clock_ok_valid _ Hc)).
  unfold Datetime.strftime, date_of.
  cbn [Datetime.year Datetime.month Datetime.day Datetime.hour Datetime.minute
       Datetime.second].
  rewrite DatetimeFacts.append_empty. reflexivity.
Qed.

Lemma C7_witness :
  all_calls_succeed demo_env demo_line1 demo_line2 tt /\
  nth_error (range (-90) 90) 90 = Some 0 /\
  exists df,
    fst (run (_get_sat_posn demo_env [demo_line1; demo_line2])) = inr df /\
    nth_error (col_datetime df) 90 = Some "2023-06-15T12:30:30"%string.
Proof.
  split; [exact demo_all_calls_succeed |].
  exact (C7_current_timestamp demo_env demo_line1 demo_line2 tt demo_all_calls_succeed).
Defined.

(* ================================================================== *)
(** ** Failures *)
(* ================================================================== *)

Lemma pull_tle_run (env : Env) (r : exn + list string) :
  fst (run (_pull_tle env)) = r -> _pull_tle env [] = (r, []).
Proof.
  intros H. pose proof (pull_tle_trace env []) as T. unfold run in H.
  destruct (_pull_tle env []) as [r' tr]. cbn in *. subst. reflexivity.
Qed.

(** A failure of the acquisition is the failure of [update_graph]. *)
Lemma update_graph_pull_fails (env : Env) (e : exn) :
  fst (run (_pull_tle env)) = inl e -> run (update_graph env) = (inl e, []).
Proof.
  intros H. unfold run, update_graph, bind.
  rewrite (pull_tle_run env _ H). reflexivity.
Qed.

(** A failure of the build is the failure of [update_graph]. *)
Lemma update_graph_build_fails (env : Env) (tle : list string) (e : exn)
    (tr : list event) :
  fst (run (_pull_tle env)) = inr tle ->
  run (_get_sat_posn env tle) = (inl e, tr) ->
  run (update_graph env) = (inl e, tr).
Proof.
  intros Hp Hb. unfold run, update_graph, bind in *.
  rewrite (pull_tle_run env _ Hp), Hb. reflexivity.
Qed.

(* ================================================================== *)
(** ** The three layers of the figure *)
(* ================================================================== *)

(** The row selections, read on a column that has one entry per offset. *)
Lemma segments_of_column {A : Type} (f : Z -> A) :
  historical_rows (map f (range (-90) 90)) = map f (range (-90) 1) /\
  future_rows (map f (range (-90) 90)) = map f (range 0 90) /\
  current_row (map f (range (-90) 90)) = inr (f 0).
Proof.
  unfold historical_rows, future_rows, current_row, iloc.
  rewrite !slice_map, nth_error_map. repeat split.
Qed.

(** C3, as stated, fails: the row of offset 0 is selected by the historical
    slice [[0:91]] and by the future slice [[90:180]] as well as by
    [.iloc[90]]; in the figure of the sample run the last point of the
    historical path and the first point of the future path are both the
    current position. *)
Lemma C3_counterexample :
  In 0 (historical_rows (range (-90) 90)) /\
  In 0 (future_rows (range (-90) 90)) /\
  current_row (range (-90) 90) = inr 0 /\
  exists fig hist fut cur x,
    fst (run (update_graph demo_env)) = inr fig /\
    nth_error (fig_traces fig) 1 = Some hist /\
    nth_error (fig_traces fig) 2 = Some fut /\
    nth_error (fig_traces fig) 3 = Some cur /\
    trace_name hist = "Historical Path"%string /\
    trace_name fut = "Future Path"%string /\
    trace_name cur = "ISS Current Position"%string /\
    nth_error (col_lat (fig_frame fig)) 90 = Some x /\
    nth_error (trace_lat hist) 90 = Some x /\
    nth_error (trace_lat fut) 0 = Some x /\
    trace_lat cur = [x].
Proof.
  split; [vm_compute; tauto |]. split; [vm_compute; tauto |].
  split; [reflexivity |].
  do 5 eexists.
  split; [vm_compute; reflexivity |].
  repeat split; reflexivity.
Qed.

(** C3, amended: the historical layer holds the rows of the offsets -90
    to 0, the future layer those of the offsets 0 to 89, and the current
    position is the single row of offset 0; that row is the one row the
    historical and the future layer share, so that both paths end at the
    current position. *)
Theorem C3_segments (env : Env) (line1 line2 : string) (sat : satellite env)
    (cities : citiesDF) :
  fst (run (_pull_tle env)) = inr [line1; line2] ->
  all_calls_succeed env line1 line2 sat ->
  read_pickle env "cities.pkl" = inr cities ->
  let lat := fun m => fst (latlon_at env sat m) in
  let lon := fun m => snd (latlon_at env sat m) in
  (exists fig,
     fst (run (update_graph env)) = inr fig /\
     col_lat (fig_frame fig) = map lat (range (-90) 90) /\
     col_lon (fig_frame fig) = map lon (range (-90) 90) /\
     fig_traces fig
     = [ mktrace "Cities" (c_lat cities) (c_lng cities);
         mktrace "Historical Path" (map lat (range (-90) 1)) (map lon (range (-90) 1));
         mktrace "Future Path" (map lat (range 0 90)) (map lon (range 0 90));
         mktrace "ISS Current Position" [lat 0] [lon 0] ]) /\
  (forall m, In m (range (-90) 1) <-> In m (range (-90) 90) /\ m <= 0) /\
  (forall m, In m (range 0 90) <-> In m (range (-90) 90) /\ 0 <= m) /\
  (forall m, In m (range (-90) 1) /\ In m (range 0 90) <-> m = 0).
Proof.
  intros Hp (Hsat & Hc & Hg) Hcities lat lon.
  split.
  - exists (mkfig (rows env sat (range (-90) 90))
        [ mktrace "Cities" (c_lat cities) (c_lng cities);
          mktrace "Historical Path" (map lat (range (-90) 1)) (map lon (range (-90) 1));
          mktrace "Future Path" (map lat (range 0 90)) (map lon (range 0 90));
          mktrace "ISS Current Position" [lat 0] [lon 0] ]).
    split; [| repeat split].
    unfold run, update_graph, bind, lift, ret.
    rewrite (pull_tle_run env _ Hp).
    pose proof (get_sat_posn_ok env line1 line2 [] sat Hsat Hc Hg) as E.
    unfold run in E. rewrite E, Hcities.
    unfold rows. cbn [col_lat col_lon fig_frame fig_traces app].
    destruct (segments_of_column lat) as (H1 & H2 & H3).
    destruct (segments_of_column lon) as (H4 & H5 & H6).
    fold lat. fold lon. rewrite H1, H2, H3, H4, H5, H6. reflexivity.
  - repeat split; intros; rewrite ?In_range in *; lia.
Qed.

Lemma C3_witness :
  (fst (run (_pull_tle demo_env)) = inr [demo_line1; demo_line2] /\
   all_calls_succeed demo_env demo_line1 demo_line2 tt /\
   read_pickle demo_env "cities.pkl" = inr (mkcities [] [] [] [])) /\
  let lat := fun m => fst (latlon_at demo_env tt m) in
  let lon := fun m => snd (latlon_at demo_env tt m) in
  (exists fig,
     fst (run (update_graph demo_env)) = inr fig /\
     col_lat (fig_frame fig) = map lat (range (-90) 90) /\
     col_lon (fig_frame fig) = map lon (range (-90) 90) /\
     fig_traces fig
     = [ mktrace "Cities" [] [];
         mktrace "Historical Path" (map lat (range (-90) 1)) (map lon (range (-90) 1));
         mktrace "Future Path" (map lat (range 0 90)) (map lon (range 0 90));
         mktrace "ISS Current Position" [lat 0] [lon 0] ]) /\
  (forall m, In m (range (-90) 1) <-> In m (range (-90) 90) /\ m <= 0) /\
  (forall m, In m (range 0 90) <-> In m (range (-90) 90) /\ 0 <= m) /\
  (forall m, In m (range (-90) 1) /\ In m (range 0 90) <-> m = 0).
Proof.
  assert (H1 : fst (run (_pull_tle demo_env)) = inr [demo_line1; demo_line2])
    by (vm_compute; reflexivity).
  assert (H3 : read_pickle demo_env "cities.pkl" = inr (mkcities [] [] [] []))
    by reflexivity.
  split; [split; [exact H1 | split; [exact demo_all_calls_succeed | exact H3]] |].
  exact (C3_segments demo_env demo_line1 demo_line2 tt (mkcities [] [] [] [])
           H1 demo_all_calls_succeed H3).
Defined.

(* ================================================================== *)
(** ** Acquisition: unpacking the response *)
(* ================================================================== *)

Lemma split_crlf_from_step (cur : list ascii) (c c2 : ascii) (rest2 : string) :
  split_crlf_from cur (String c (String c2 rest2))
  = if (Ascii.eqb c CR && Ascii.eqb c2 LF)%bool
    then rev_string EmptyString cur :: split_crlf_from [] rest2
    else split_crlf_from (c :: cur) (String c2 rest2).
Proof. reflexivity. Qed.

Lemma count_crlf_step (c c2 : ascii) (rest2 : string) :
  count_crlf (String c (String c2 rest2))
  = if (Ascii.eqb c CR && Ascii.eqb c2 LF)%bool
    then S (count_crlf rest2)
    else count_crlf (String c2 rest2).
Proof. reflexivity. Qed.

(** [str.split] returns one part more than there are separators. *)
Lemma split_crlf_from_length (s : string) :
  forall cur, List.length (split_crlf_from cur s) = S (count_crlf s).
Proof.
  assert (H : forall n s, (String.length s <= n)%nat ->
              forall cur, List.length (split_crlf_from cur s) = S (count_crlf s)).
  { induction n as [|n IH]; intros [|c [|c2 rest2]] Hlen cur;
      cbn [String.length] in Hlen; try lia; try reflexivity.
    rewrite split_crlf_from_step, count_crlf_step.
    destruct (Ascii.eqb c CR && Ascii.eqb c2 LF)%bool.
    - cbn [List.length]. rewrite IH by lia. reflexivity.
    - apply IH. cbn [String.length]. lia. }
  intros cur. apply (H (String.length s)). lia.
Qed.

Lemma split_crlf_length (s : string) :
  List.length (split_crlf s) = S (count_crlf s).
Proof. apply split_crlf_from_length. Qed.

(** Two element lines with bare line feeds: no separator is found. *)
Lemma lf_text_is_one_part :
  count_crlf lf_text = 0%nat /\ split_crlf lf_text = [lf_text].
Proof. split; vm_compute; reflexivity. Qed.

(** C10: once both HTTP calls have answered 200, [_pull_tle] succeeds
    exactly when the response text holds two occurrences of the separator
    CR LF, that is, when it splits into three parts, of which it returns the
    first two; with any other number of separators it raises the
    [ValueError] of the tuple unpacking (not [MyError]), whatever the text
    contains. *)
Theorem C10_unpacking (env : Env) (resp : response) :
  (forall opt, exists v, config_get env "configuration" opt = inr v) ->
  (forall url cred, exists r,
     session_post env url cred = inr r /\ status_code r = 200) ->
  (forall url, session_get env url = inr resp) ->
  status_code resp = 200 ->
  List.length (split_crlf (text resp)) = S (count_crlf (text resp)) /\
  (count_crlf (text resp) = 2%nat ->
   exists l1 l2 l3,
     split_crlf (text resp) = [l1; l2; l3] /\
     run (_pull_tle env) = (inr [l1; l2], [])) /\
  (count_crlf (text resp) <> 2%nat ->
   exists msg,
     run (_pull_tle env) = (inl (ValueError msg), []) /\
     exn_class (ValueError msg) = "ValueError"%string).
Proof.
  intros Hcfg Hpost Hget Hstatus.
  pose proof (split_crlf_length (text resp)) as Hlen.
  split; [exact Hlen |].
  assert (Hrun : run (_pull_tle env)
          = match split_crlf (text resp) with
            | [line1; line2; _] => (inr [line1; line2], [])
            | parts =>
                if (List.length parts <? 3)%nat
                then (inl (ValueError "not enough values to unpack (expected 3)"), [])
                else (inl (ValueError "too many values to unpack (expected 3)"), [])
            end).
  { unfold run, _pull_tle, bind, lift, raise, ret.
    destruct (Hcfg "username"%string) as [u ->].
    destruct (Hcfg "password"%string) as [pw ->].
    destruct (Hcfg "output"%string) as [out ->].
    match goal with
    | |- context [session_post env ?url ?cred] =>
        destruct (Hpost url cred) as (r & -> & Hr)
    end.
    rewrite Hr, Hget, Hstatus. cbn [Z.eqb Pos.eqb negb].
    destruct (split_crlf (text resp)) as [|a [|b [|c [|d l]]]]; reflexivity. }
  rewrite Hrun. split.
  - intros H2. rewrite H2 in Hlen.
    destruct (split_crlf (text resp)) as [|a [|b [|c [|d l]]]]; try discriminate.
    exists a, b, c. split; reflexivity.
  - intros H2.
    destruct (split_crlf (text resp)) as [|a [|b [|c [|d l]]]];
      cbn [List.length] in *;
      try (eexists; split; reflexivity).
    exfalso. apply H2. injection Hlen as Hlen. symmetry. exact Hlen.
Qed.

Lemma C10_witness :
  let env := with_text demo_env lf_text in
  let resp := mkresp 200 lf_text in
  ((forall opt, exists v, config_get env "configuration" opt = inr v) /\
   (forall url cred, exists r,
      session_post env url cred = inr r /\ status_code r = 200) /\
   (forall url, session_get env url = inr resp) /\
   status_code resp = 200) /\
  List.length (split_crlf (text resp)) = S (count_crlf (text resp)) /\
  (count_crlf (text resp) = 2%nat ->
   exists l1 l2 l3,
     split_crlf (text resp) = [l1; l2; l3] /\
     run (_pull_tle env) = (inr [l1; l2], [])) /\
  (count_crlf (text resp) <> 2%nat ->
   exists msg,
     run (_pull_tle env) = (inl (ValueError msg), []) /\
     exn_class (ValueError msg) = "ValueError"%string).
Proof.
  intros env resp.
  assert (H1 : forall opt, exists v, config_get env "configuration" opt = inr v)
    by (intros opt; eexists; reflexivity).
  assert (H2 : forall url cred, exists r,
             session_post env url cred = inr r /\ status_code r = 200)
    by (intros url cred; eexists; split; reflexivity).
  assert (H3 : forall url, session_get env url = inr resp)
    by (intros url; reflexivity).
  assert (H4 : status_code resp = 200) by reflexivity.
  split; [repeat split; assumption |].
  exact (C10_unpacking env resp H1 H2 H3 H4).
Defined.

(* ================================================================== *)
(** ** More on the acquisition *)
(* ================================================================== *)

(** X1: a configuration option that cannot be read aborts the acquisition
    with the exception of the lookup -- also the option [output], whose
    value the script never uses -- whatever the HTTP session would have
    answered. *)
Theorem X1_missing_option (env : Env) (e : exn) :
  config_get env "configuration" "username" = inl e \/
  ((exists u, config_get env "configuration" "username" = inr u) /\
   config_get env "configuration" "password" = inl e) \/
  ((exists u, config_get env "configuration" "username" = inr u) /\
   (exists p, config_get env "configuration" "password" = inr p) /\
   config_get env "configuration" "output" = inl e) ->
  run (_pull_tle env) = (inl e, []) /\
  run (update_graph env) = (inl e, []).
Proof.
  intros H.
  assert (E : run (_pull_tle env) = (inl e, [])).
  { unfold run, _pull_tle, bind, lift.
    destruct H as [-> | [([u ->] & ->) | ([u ->] & [pw ->] & ->)]]; reflexivity. }
  split; [exact E |].
  apply update_graph_pull_fails. rewrite E. reflexivity.
Qed.

Lemma X1_witness :
  ((exists u, config_get no_output_env "configuration" "username" = inr u) /\
   (exists p, config_get no_output_env "configuration" "password" = inr p) /\
   config_get no_output_env "configuration" "output"
   = inl (NoOptionError "output" "configuration")) /\
  run (_pull_tle no_output_env)
  = (inl (NoOptionError "output" "configuration"), []) /\
  run (update_graph no_output_env)
  = (inl (NoOptionError "output" "configuration"), []).
Proof.
  assert (H : (exists u, config_get no_output_env "configuration" "username" = inr u) /\
              (exists p, config_get no_output_env "configuration" "password" = inr p) /\
              config_get no_output_env "configuration" "output"
              = inl (NoOptionError "output" "configuration"))
    by (split; [eexists; reflexivity | split; [eexists; reflexivity | reflexivity]]).
  split; [exact H |].
  exact (X1_missing_option no_output_env _ (or_intror (or_intror H))).
Defined.

(** X2: an HTTP status other than 200 raises [MyError]: for the login the
    message is "POST fail on login" and the query is not looked at; for the
    query, after a successful login, it is the "GET fail" message, and the
    response text is not unpacked. *)
Theorem X2_http_status (env : Env) (login query : response) :
  (forall opt, exists v, config_get env "configuration" opt = inr v) ->
  (forall url cred, session_post env url cred = inr login) ->
  (forall url, session_get env url = inr query) ->
  status_code login <> 200 \/ status_code query <> 200 ->
  run (_pull_tle env)
  = (inl (if status_code login =? 200
          then MyError query "GET fail on request for Starlink satellites"
          else MyError login "POST fail on login"), []) /\
  exists e, fst (run (_pull_tle env)) = inl e /\ exn_class e = "MyError"%string.
Proof.
  intros Hcfg Hpost Hget Hstatus.
  assert (E : run (_pull_tle env)
          = (inl (if status_code login =? 200
                  then MyError query "GET fail on request for Starlink satellites"
                  else MyError login "POST fail on login"), [])).
  { unfold run, _pull_tle, bind, lift, raise.
    destruct (Hcfg "username"%string) as [u ->].
    destruct (Hcfg "password"%string) as [pw ->].
    destruct (Hcfg "output"%string) as [out ->].
    rewrite Hpost.
    destruct (status_code login =? 200) eqn:E1; cbn [negb]; [| reflexivity].
    rewrite Hget.
    destruct (status_code query =? 200) eqn:E2; cbn [negb]; [| reflexivity].
    apply Z.eqb_eq in E1, E2. exfalso. destruct Hstatus; contradiction. }
  split; [exact E |].
  rewrite E. cbn [fst].
  destruct (status_code login =? 200); eexists; split; reflexivity.
Qed.

Lemma X2_witness :
  let env := with_responses demo_env (mkresp 401 "") (mkresp 200 demo_text) in
  ((forall opt, exists v, config_get env "configuration" opt = inr v) /\
   (forall url cred, session_post env url cred = inr (mkresp 401 "")) /\
   (forall url, session_get env url = inr (mkresp 200 demo_text)) /\
   (status_code (mkresp 401 "") <> 200 \/ status_code (mkresp 200 demo_text) <> 200)) /\
  run (_pull_tle env)
  = (inl (MyError (mkresp 401 "") "POST fail on login"), []) /\
  exists e, fst (run (_pull_tle env)) = inl e /\ exn_class e = "MyError"%string.
Proof.
  intros env.
  assert (H1 : forall opt, exists v, config_get env "configuration" opt = inr v)
    by (intros opt; eexists; reflexivity).
  assert (H2 : forall url cred, session_post env url cred = inr (mkresp 401 ""))
    by reflexivity.
  assert (H3 : forall url, session_get env url = inr (mkresp 200 demo_text))
    by reflexivity.
  assert (H4 : status_code (mkresp 401 "") <> 200
               \/ status_code (mkresp 200 demo_text) <> 200)
    by (left; discriminate).
  split; [repeat split; assumption |].
  exact (X2_http_status env _ _ H1 H2 H3 H4).
Defined.

(** *** What the two returned lines are *)

Lemma string_app_assoc (a b c : string) :
  ((a ++ b) ++ c)%string = (a ++ (b ++ c))%string.
Proof. induction a as [|x a IH]; [reflexivity | cbn; rewrite IH; reflexivity]. Qed.

Lemma rev_string_app (cur : list ascii) (acc : string) :
  rev_string acc cur = (rev_string EmptyString cur ++ acc)%string.
Proof.
  revert acc. induction cur as [|c cur IH]; intros acc; cbn [rev_string].
  - reflexivity.
  - rewrite (IH (String c acc)), (IH (String c EmptyString)).
    rewrite string_app_assoc. reflexivity.
Qed.

Lemma rev_string_cons (c : ascii) (cur : list ascii) (s : string) :
  (rev_string EmptyString (c :: cur) ++ s)%string
  = (rev_string EmptyString cur ++ String c s)%string.
Proof.
  cbn [rev_string]. rewrite (rev_string_app cur (String c EmptyString)).
  rewrite string_app_assoc. reflexivity.
Qed.

Lemma crlf_chars (c c2 : ascii) :
  (Ascii.eqb c CR && Ascii.eqb c2 LF)%bool = true -> c = CR /\ c2 = LF.
Proof.
  intros H. apply andb_true_iff in H as [H1 H2].
  split; apply Ascii.eqb_eq; assumption.
Qed.

Lemma split_crlf_from_nonempty (s : string) (cur : list ascii) :
  split_crlf_from cur s <> [].
Proof.
  pose proof (split_crlf_from_length s cur) as H.
  destruct (split_crlf_from cur s); [discriminate | discriminate].
Qed.

Lemma join_crlf_cons (x : string) (rest : list string) :
  rest <> [] -> join_crlf (x :: rest) = (x ++ CRLF ++ join_crlf rest)%string.
Proof. destruct rest; [congruence | reflexivity]. Qed.

(** Joining the parts with the separator gives the text back. *)
Lemma join_split_crlf_from (s : string) :
  forall cur,
    join_crlf (split_crlf_from cur s) = (rev_string EmptyString cur ++ s)%string.
Proof.
  assert (H : forall n s, (String.length s <= n)%nat ->
              forall cur, join_crlf (split_crlf_from cur s)
                          = (rev_string EmptyString cur ++ s)%string).
  { induction n as [|n IH]; intros [|c [|c2 rest2]] Hlen cur;
      cbn [String.length] in Hlen; try lia.
    - cbn [split_crlf_from join_crlf].
      rewrite DatetimeFacts.append_empty. reflexivity.
    - cbn [split_crlf_from join_crlf].
      rewrite DatetimeFacts.append_empty. reflexivity.
    - cbn [split_crlf_from join_crlf rev_string]. apply rev_string_app.
    - rewrite split_crlf_from_step.
      destruct (Ascii.eqb c CR && Ascii.eqb c2 LF)%bool eqn:E.
      + destruct (crlf_chars _ _ E) as [-> ->].
        rewrite join_crlf_cons by apply split_crlf_from_nonempty.
        rewrite IH by lia. reflexivity.
      + rewrite IH by (cbn [String.length]; lia).
        apply rev_string_cons. }
  intros cur. apply (H (String.length s)). lia.
Qed.

Lemma count_crlf_app_cr (a r : string) :
  count_crlf (a ++ String CR r) = (count_crlf a + count_crlf (String CR r))%nat.
Proof.
  assert (H : forall n a, (String.length a <= n)%nat ->
              count_crlf (a ++ String CR r)
              = (count_crlf a + count_crlf (String CR r))%nat).
  { induction n as [|n IH]; intros [|c [|c2 a']] Hlen;
      cbn [String.length] in Hlen; try lia; try reflexivity.
    - cbn [append]. rewrite count_crlf_step.
      replace (Ascii.eqb c CR && Ascii.eqb CR LF)%bool with false
        by (destruct (Ascii.eqb c CR); reflexivity).
      reflexivity.
    - change ((String c (String c2 a') ++ String CR r)%string)
        with (String c (String c2 (a' ++ String CR r))).
      rewrite !count_crlf_step.
      destruct (Ascii.eqb c CR && Ascii.eqb c2 LF)%bool.
      + rewrite IH by lia. reflexivity.
      + change (String c2 (a' ++ String CR r)) with ((String c2 a' ++ String CR r)%string).
        apply IH. cbn [String.length]. lia. }
  apply (H (String.length a)). lia.
Qed.

(** No part of the split contains the separator. *)
Lemma split_crlf_from_parts (s : string) :
  forall cur,
    count_crlf (rev_string EmptyString cur ++ s) = count_crlf s ->
    Forall (fun part => count_crlf part = 0%nat) (split_crlf_from cur s).
Proof.
  assert (H : forall n s, (String.length s <= n)%nat ->
              forall cur,
                count_crlf (rev_string EmptyString cur ++ s) = count_crlf s ->
                Forall (fun part => count_crlf part = 0%nat) (split_crlf_from cur s)).
  { induction n as [|n IH]; intros [|c [|c2 rest2]] Hlen cur Q;
      cbn [String.length] in Hlen; try lia.
    - constructor; [| constructor].
      rewrite DatetimeFacts.append_empty in Q. exact Q.
    - constructor; [| constructor].
      rewrite DatetimeFacts.append_empty in Q. exact Q.
    - cbn [split_crlf_from]. constructor; [| constructor].
      rewrite <- (DatetimeFacts.append_empty (rev_string EmptyString (c :: cur))).
      rewrite rev_string_cons. exact Q.
    - rewrite split_crlf_from_step.
      rewrite count_crlf_step in Q.
      destruct (Ascii.eqb c CR && Ascii.eqb c2 LF)%bool eqn:E.
      + destruct (crlf_chars _ _ E) as [-> ->].
        rewrite count_crlf_app_cr, count_crlf_step in Q. cbn [andb] in Q.
        replace (Ascii.eqb CR CR && Ascii.eqb LF LF)%bool with true in Q by reflexivity.
        constructor; [lia |].
        apply IH; [lia | reflexivity].
      + apply IH; [cbn [String.length]; lia |].
        rewrite rev_string_cons. exact Q. }
  intros cur. apply (H (String.length s)). lia.
Qed.

(** The outcome of [_pull_tle] once both HTTP calls have answered 200. *)
Lemma pull_tle_unpack (env : Env) (resp : response) (l1 l2 l3 : string) :
  (forall opt, exists v, config_get env "configuration" opt = inr v) ->
  (forall url cred, exists r,
     session_post env url cred = inr r /\ status_code r = 200) ->
  (forall url, session_get env url = inr resp) ->
  status_code resp = 200 ->
  split_crlf (text resp) = [l1; l2; l3] ->
  run (_pull_tle env) = (inr [l1; l2], []).
Proof.
  intros Hcfg Hpost Hget Hstatus Hsplit.
  unfold run, _pull_tle, bind, lift, raise, ret.
  destruct (Hcfg "username"%string) as [u ->].
  destruct (Hcfg "password"%string) as [pw ->].
  destruct (Hcfg "output"%string) as [out ->].
  match goal with
  | |- context [session_post env ?url ?cred] =>
      destruct (Hpost url cred) as (r & -> & Hr)
  end.
  rewrite Hr, Hget, Hstatus, Hsplit. reflexivity.
Qed.

(** X3: when the response text holds exactly two separators, the two lines
    [_pull_tle] returns are the text up to the first separator and the text
    between the two separators: the response is line 1, CR LF, line 2,
    CR LF and a discarded tail, and neither line (nor the tail) contains
    the separator. *)
Theorem X3_lines_of_response (env : Env) (resp : response) :
  (forall opt, exists v, config_get env "configuration" opt = inr v) ->
  (forall url cred, exists r,
     session_post env url cred = inr r /\ status_code r = 200) ->
  (forall url, session_get env url = inr resp) ->
  status_code resp = 200 ->
  count_crlf (text resp) = 2%nat ->
  exists line1 line2 tail,
    run (_pull_tle env) = (inr [line1; line2], []) /\
    text resp = (line1 ++ CRLF ++ line2 ++ CRLF ++ tail)%string /\
    count_crlf line1 = 0%nat /\ count_crlf line2 = 0%nat /\
    count_crlf tail = 0%nat.
Proof.
  intros Hcfg Hpost Hget Hstatus Hcount.
  pose proof (split_crlf_length (text resp)) as Hlen. rewrite Hcount in Hlen.
  pose proof (join_split_crlf_from (text resp) []) as Hjoin.
  pose proof (split_crlf_from_parts (text resp) [] eq_refl) as Hparts.
  fold (split_crlf (text resp)) in Hjoin, Hparts.
  destruct (split_crlf (text resp)) as [|a [|b [|c [|d l]]]] eqn:Hsplit;
    try discriminate.
  exists a, b, c.
  split; [exact (pull_tle_unpack env resp a b c Hcfg Hpost Hget Hstatus Hsplit) |].
  split; [symmetry; exact Hjoin |].
  inversion Hparts as [|? ? Ha Hrest]; subst.
  inversion Hrest as [|? ? Hb Hrest']; subst.
  inversion Hrest' as [|? ? Hc _]; subst.
  repeat split; assumption.
Qed.

Lemma X3_witness :
  ((forall opt, exists v, config_get demo_env "configuration" opt = inr v) /\
   (forall url cred, exists r,
      session_post demo_env url cred = inr r /\ status_code r = 200) /\
   (forall url, session_get demo_env url = inr (mkresp 200 demo_text)) /\
   status_code (mkresp 200 demo_text) = 200 /\
   count_crlf (text (mkresp 200 demo_text)) = 2%nat) /\
  exists line1 line2 tail,
    run (_pull_tle demo_env) = (inr [line1; line2], []) /\
    text (mkresp 200 demo_text) = (line1 ++ CRLF ++ line2 ++ CRLF ++ tail)%string /\
    count_crlf line1 = 0%nat /\ count_crlf line2 = 0%nat /\
    count_crlf tail = 0%nat.
Proof.
  assert (H1 : forall opt, exists v, config_get demo_env "configuration" opt = inr v)
    by (intros opt; eexists; reflexivity).
  assert (H2 : forall url cred, exists r,
             session_post demo_env url cred = inr r /\ status_code r = 200)
    by (intros url cred; eexists; split; reflexivity).
  assert (H3 : forall url, session_get demo_env url = inr (mkresp 200 demo_text))
    by reflexivity.
  assert (H4 : status_code (mkresp 200 demo_text) = 200) by reflexivity.
  assert (H5 : count_crlf (text (mkresp 200 demo_text)) = 2%nat)
    by (vm_compute; reflexivity).
  split; [repeat split; assumption |].
  exact (X3_lines_of_response demo_env _ H1 H2 H3 H4 H5).
Defined.

(* ================================================================== *)
(** ** More on the ground-track build *)
(* ================================================================== *)

(** X4: called with fewer than two lines, [_get_sat_posn] raises the
    [IndexError] of the list access and neither builds the satellite nor
    propagates; lines beyond the second are ignored. *)
Theorem X4_lines_used (env : Env) (tle : list string) :
  (List.length tle < 2)%nat ->
  run (_get_sat_posn env tle) = (inl (IndexError "list index out of range"), []) /\
  forall line1 line2 rest,
    run (_get_sat_posn env (line1 :: line2 :: tle ++ rest))
    = run (_get_sat_posn env [line1; line2]).
Proof.
  intros Hlen. split.
  - destruct tle as [|a [|b l]]; [reflexivity | reflexivity | cbn in Hlen; lia].
  - intros line1 line2 rest. reflexivity.
Qed.

Lemma X4_witness :
  (List.length [demo_line1] < 2)%nat /\
  run (_get_sat_posn demo_env [demo_line1])
  = (inl (IndexError "list index out of range"), []) /\
  forall line1 line2 rest,
    run (_get_sat_posn demo_env (line1 :: line2 :: [demo_line1] ++ rest))
    = run (_get_sat_posn demo_env [line1; line2]).
Proof.
  assert (H : (List.length [demo_line1] < 2)%nat) by (cbn; lia).
  split; [exact H |].
  exact (X4_lines_used demo_env [demo_line1] H).
Defined.

Lemma date_fields_ok_check (t : utc_tuple) :
  date_fields_ok t = true ->
  Datetime._check_date_fields (t0 t) (t1 t) (t2 t) = inr tt /\
  0 <= t3 t <= 23 /\ 0 <= t4 t <= 59.
Proof.
  unfold date_fields_ok. rewrite !andb_true_iff, !Z.leb_le.
  intros H. repeat match goal with H : _ /\ _ |- _ => destruct H end.
  split; [| lia].
  unfold Datetime._check_date_fields, Datetime.MINYEAR, Datetime.MAXYEAR.
  repeat match goal with
  | |- context [negb (?a && ?b)] =>
      replace (a && b) with true
        by (symmetry; apply andb_true_iff; rewrite !Z.leb_le; lia);
      cbn [negb]
  end.
  reflexivity.
Qed.

(** X5: a clock reading taken during a leap second (seconds of 60 or more)
    makes the [datetime] constructor of line 63 raise [ValueError]: the
    satellite has been built, but no sample is propagated and no frame is
    returned. *)
Theorem X5_leap_second (env : Env) (line1 line2 : string) (sat : satellite env) :
  EarthSatellite env line1 line2 "ISS" = inr sat ->
  date_fields_ok (ts_now_utc env) = true ->
  (60 <= t5 (ts_now_utc env))%Q ->
  run (_get_sat_posn env [line1; line2])
  = (inl (ValueError "second must be in 0..59"), [Construct line1 line2]).
Proof.
  intros Hsat Hd Hs.
  destruct (date_fields_ok_check _ Hd) as (Hdate & Hh & Hmi).
  assert (Hint : 60 <= int (t5 (ts_now_utc env))).
  { destruct (t5 (ts_now_utc env)) as [n d]. unfold Qle in Hs. unfold int.
    cbn [Qnum Qden] in *. rewrite Z.quot_div_nonneg by lia.
    apply Z.div_le_lower_bound; lia. }
  unfold run, _get_sat_posn, bind, lift, emit. cbn [index nth_error app].
  rewrite Hsat. unfold Datetime.new. rewrite Hdate.
  unfold Datetime._check_time_fields.
  replace ((0 <=? t3 (ts_now_utc env)) && (t3 (ts_now_utc env) <=? 23)) with true
    by (symmetry; apply andb_true_iff; rewrite !Z.leb_le; lia).
  replace ((0 <=? t4 (ts_now_utc env)) && (t4 (ts_now_utc env) <=? 59)) with true
    by (symmetry; apply andb_true_iff; rewrite !Z.leb_le; lia).
  replace ((0 <=? int (t5 (ts_now_utc env))) && (int (t5 (ts_now_utc env)) <=? 59))
    with false
    by (symmetry; apply andb_false_iff; right; apply Z.leb_gt; lia).
  reflexivity.
Qed.

Lemma X5_witness :
  (EarthSatellite leap_second_env demo_line1 demo_line2 "ISS" = inr tt /\
   date_fields_ok (ts_now_utc leap_second_env) = true /\
   (60 <= t5 (ts_now_utc leap_second_env))%Q) /\
  run (_get_sat_posn leap_second_env [demo_line1; demo_line2])
  = (inl (ValueError "second must be in 0..59"),
     [Construct demo_line1 demo_line2]).
Proof.
  assert (H1 : EarthSatellite leap_second_env demo_line1 demo_line2 "ISS" = inr tt)
    by reflexivity.
  assert (H2 : date_fields_ok (ts_now_utc leap_second_env) = true) by reflexivity.
  assert (H3 : (60 <= t5 (ts_now_utc leap_second_env))%Q) by discriminate.
  split; [repeat split; assumption |].
  exact (X5_leap_second leap_second_env demo_line1 demo_line2 tt H1 H2 H3).
Defined.

(** *** The first failing sample *)

Lemma map_seq_from (lo : Z) (len start : nat) :
  map (fun i => lo + Z.of_nat i) (seq start len)
  = map (fun i => lo + Z.of_nat start + Z.of_nat i) (seq 0 len).
Proof.
  revert lo start. induction len as [|len IH]; intros lo start; [reflexivity |].
  cbn [seq map]. f_equal; [lia |].
  rewrite (IH lo (S start)), (IH (lo + Z.of_nat start) 1%nat).
  apply map_ext. intros i. lia.
Qed.

Lemma range_split (lo mid hi : Z) :
  lo <= mid <= hi -> range lo hi = range lo mid ++ range mid hi.
Proof.
  intros H. unfold range.
  replace (Z.to_nat (hi - lo)) with (Z.to_nat (mid - lo) + Z.to_nat (hi - mid))%nat
    by lia.
  rewrite seq_app, map_app. f_equal.
  cbn [Nat.add]. rewrite map_seq_from. apply map_ext. intros i. lia.
Qed.

Lemma range_first (lo hi : Z) : lo < hi -> range lo hi = lo :: range (lo + 1) hi.
Proof.
  intros H. rewrite (range_split lo (lo + 1) hi) by lia.
  replace (range lo (lo + 1)) with [lo]; [reflexivity |].
  unfold range. replace (lo + 1 - lo) with 1 by lia.
  change (Z.to_nat 1) with 1%nat. cbn [seq map Z.of_nat]. f_equal. lia.
Qed.

Lemma for_each_app {A S : Type} (l1 l2 : list A) (body : A -> S -> M S) (s : S)
    (tr : list event) :
  for_each (l1 ++ l2) body s tr
  = match for_each l1 body s tr with
    | (inr s', tr') => for_each l2 body s' tr'
    | (inl e, tr') => (inl e, tr')
    end.
Proof.
  revert s tr. induction l1 as [|x l1 IH]; intros s tr; [reflexivity |].
  cbn [app for_each]. unfold bind.
  destruct (body x s tr) as [[e | s'] tr']; [reflexivity | apply IH].
Qed.

(** X6: the samples are taken in order and the build stops at the first
    propagation that raises: the exception comes back unchanged, the calls
    made are those of the offsets up to the failing one, and no later
    sample is attempted. *)
Theorem X6_first_failure (env : Env) (line1 line2 : string) (sat : satellite env)
    (k : Z) (e : exn) :
  EarthSatellite env line1 line2 "ISS" = inr sat ->
  clock_ok (ts_now_utc env) = true ->
  In k (range (-90) 90) ->
  (forall m, In m (range (-90) k) ->
             exists g, sat_at env sat (new_t (ts_now_utc env) m) = inr g) ->
  sat_at env sat (new_t (ts_now_utc env) k) = inl e ->
  run (_get_sat_posn env [line1; line2])
  = (inl e,
     Construct line1 line2
     :: map (fun m => Propagate (new_t (ts_now_utc env) m)) (range (-90) (k + 1))).
Proof.
  intros Hsat Hc Hk Hbefore He. apply In_range in Hk.
  unfold run, _get_sat_posn, bind, lift, emit. cbn [index nth_error app].
  rewrite Hsat, (clock_ok_new _ Hc).
  rewrite (range_split (-90) k 90) by lia.
  rewrite (range_first k 90) by lia.
  rewrite for_each_app.
  rewrite (loop_ok env sat (range (-90) k) Hc).
  - cbn [for_each]. unfold bind.
    destruct (date_at_spec (ts_now_utc env) k Hc ltac:(lia)) as (Eadd & _ & _).
    unfold sample at 1. unfold bind, lift, emit. rewrite Eadd, He.
    rewrite (range_split (-90) k (k + 1)) by lia.
    rewrite (range_first k (k + 1)) by lia.
    replace (range (k + 1) (k + 1)) with (@nil Z)
      by (unfold range; replace (k + 1 - (k + 1)) with 0 by lia; reflexivity).
    rewrite map_app. reflexivity.
  - intros m Hm. apply In_range in Hm. lia.
  - exact Hbefore.
Qed.

Lemma X6_witness :
  (EarthSatellite diverging_env demo_line1 demo_line2 "ISS" = inr tt /\
   clock_ok (ts_now_utc diverging_env) = true /\
   In 10 (range (-90) 90) /\
   (forall m, In m (range (-90) 10) ->
      exists g, sat_at diverging_env tt (new_t (ts_now_utc diverging_env) m) = inr g) /\
   sat_at diverging_env tt (new_t (ts_now_utc diverging_env) 10)
   = inl (Raise "RuntimeError" ["propagation diverged"%string])) /\
  run (_get_sat_posn diverging_env [demo_line1; demo_line2])
  = (inl (Raise "RuntimeError" ["propagation diverged"%string]),
     Construct demo_line1 demo_line2
     :: map (fun m => Propagate (new_t (ts_now_utc diverging_env) m))
            (range (-90) (10 + 1))).
Proof.
  assert (H1 : EarthSatellite diverging_env demo_line1 demo_line2 "ISS" = inr tt)
    by reflexivity.
  assert (H2 : clock_ok (ts_now_utc diverging_env) = true) by reflexivity.
  assert (H3 : In 10 (range (-90) 90)) by (apply In_range; lia).
  assert (H4 : forall m, In m (range (-90) 10) ->
      exists g, sat_at diverging_env tt (new_t (ts_now_utc diverging_env) m) = inr g).
  { intros m Hm. apply In_range in Hm.
    cbn [sat_at diverging_env ts_now_utc].
    replace (Qle_bool (time_seconds (reference_instant demo_now) + 600)
                      (time_seconds (new_t demo_now m)))
      with false; [eexists; reflexivity |].
    symmetry. apply not_true_is_false. intros C. apply Qle_bool_iff in C.
    destruct (new_t_shift demo_now m) as [_ Es]. rewrite Es in C.
    assert (inject_Z (60 * m) < 600)%Q.
    { change 600%Q with (inject_Z 600). rewrite <- Zlt_Qlt. lia. }
    lra. }
  assert (H5 : sat_at diverging_env tt (new_t (ts_now_utc diverging_env) 10)
               = inl (Raise "RuntimeError" ["propagation diverged"%string]))
    by (vm_compute; reflexivity).
  split; [repeat split; assumption |].
  exact (X6_first_failure diverging_env demo_line1 demo_line2 tt 10 _ H1 H2 H3 H4 H5).
Defined.

(** *** Whatever frame comes back *)

Lemma sample_returns (env : Env) (sat : satellite env) (t : utc_tuple)
    (date : Datetime.datetime) (m : Z) (p p' : positions) (tr tr' : list event) :
  sample env sat t date m p tr = (inr p', tr') ->
  col_name p' = col_name p ++ ["ISS"%string] /\
  List.length (col_lat p') = S (List.length (col_lat p)) /\
  List.length (col_lon p') = S (List.length (col_lon p)) /\
  List.length (col_datetime p') = S (List.length (col_datetime p)) /\
  tr' = tr ++ [Propagate (new_t t m)].
Proof.
  unfold sample, bind, lift, emit, ret.
  destruct (Datetime.add date _) as [e | d]; [discriminate |].
  destruct (sat_at env sat (new_t t m)) as [e | g]; [discriminate |].
  destruct (latlon_of env g) as [lat lon].
  generalize (Float64._dms_to_dd (Float64.dms lon))
             (Float64._dms_to_dd (Float64.dms lat)).
  intros lonDD latDD H. injection H as <- <-.
  cbn [col_name col_lat col_lon col_datetime].
  rewrite !length_app. cbn [List.length].
  repeat split; lia.
Qed.

Lemma loop_returns (env : Env) (sat : satellite env) (t : utc_tuple)
    (date : Datetime.datetime) (l : list Z) :
  forall p p' tr tr',
    for_each l (sample env sat t date) p tr = (inr p', tr') ->
    col_name p' = col_name p ++ repeat "ISS"%string (List.length l) /\
    List.length (col_lat p') = (List.length (col_lat p) + List.length l)%nat /\
    List.length (col_lon p') = (List.length (col_lon p) + List.length l)%nat /\
    List.length (col_datetime p') = (List.length (col_datetime p) + List.length l)%nat /\
    tr' = tr ++ map (fun m => Propagate (new_t t m)) l.
Proof.
  induction l as [|m l IH]; intros p p' tr tr' H.
  - cbn in H. injection H as <- <-. cbn. rewrite !app_nil_r. repeat split; lia.
  - cbn [for_each] in H. unfold bind in H.
    destruct (sample env sat t date m p tr) as [[e | p1] tr1] eqn:E1; [discriminate |].
    destruct (sample_returns _ _ _ _ _ _ _ _ _ E1) as (N1 & A1 & O1 & D1 & T1).
    destruct (IH _ _ _ _ H) as (N & A & O & D & T).
    rewrite N, A, O, D, T, N1, A1, O1, D1, T1.
    cbn [List.length repeat map]. rewrite <- !app_assoc. cbn [app].
    repeat split; lia.
Qed.

(** X7: whatever the collaborators do, a frame that [_get_sat_posn]
    returns has exactly 180 entries in each of its four columns, every name
    is 'ISS', and it was obtained with exactly one construction from the
    first two lines followed by 180 propagation calls, one per offset in
    increasing order. *)
Theorem X7_returned_frame (env : Env) (tle : list string) (df : DataFrame)
    (tr : list event) :
  run (_get_sat_posn env tle) = (inr df, tr) ->
  col_name df = repeat "ISS"%string 180 /\
  List.length (col_lat df) = 180%nat /\
  List.length (col_lon df) = 180%nat /\
  List.length (col_datetime df) = 180%nat /\
  exists line1 line2,
    nth_error tle 0 = Some line1 /\ nth_error tle 1 = Some line2 /\
    tr = full_trace (ts_now_utc env) line1 line2.
Proof.
  unfold run, _get_sat_posn, bind, lift, emit, index.
  destruct tle as [|line1 [|line2 rest]]; cbn [nth_error]; try discriminate.
  destruct (EarthSatellite env line1 line2 "ISS") as [e | sat]; [discriminate |].
  destruct (Datetime.new _ _ _ _ _ _) as [e | date]; [discriminate |].
  destruct (for_each _ _ _ _) as [[e | p] tr1] eqn:Eloop; [discriminate |].
  destruct (loop_returns _ _ _ _ _ _ _ _ _ Eloop) as (N & A & O & D & T).
  unfold pd_DataFrame.
  destruct (_ && _)%bool; [| discriminate].
  intros H. injection H as <- <-.
  rewrite range_length in N, A, O, D. cbn in N, A, O, D.
  repeat split; try assumption.
  exists line1, line2. repeat split. exact T.
Qed.

Lemma X7_witness :
  exists df tr,
    run (_get_sat_posn demo_env [demo_line1; demo_line2]) = (inr df, tr) /\
    col_name df = repeat "ISS"%string 180 /\
    List.length (col_lat df) = 180%nat /\
    List.length (col_lon df) = 180%nat /\
    List.length (col_datetime df) = 180%nat /\
    exists line1 line2,
      nth_error [demo_line1; demo_line2] 0 = Some line1 /\
      nth_error [demo_line1; demo_line2] 1 = Some line2 /\
      tr = full_trace (ts_now_utc demo_env) line1 line2.
Proof.
  destruct demo_all_calls_succeed as (H1 & H2 & H3).
  pose proof (get_sat_posn_ok demo_env demo_line1 demo_line2 [] tt H1 H2 H3) as E.
  do 2 eexists. split; [exact E |].
  exact (X7_returned_frame demo_env _ _ _ E).
Defined.

(** *** The timestamps *)










(** *** The coordinates *)

(** X9: the detour through degrees, minutes and seconds moves a coordinate
    by rounding only: the latitude and the longitude stored for an offset
    are within 1e-6 degrees of the angles [wgs84.latlon_of] returned for the
    position propagated to that offset's instant, for angles of at most 180
    degrees in magnitude.  (They need not be equal: 125.076145 is stored as
    125.07614499999998.) *)
Theorem X9_stored_coordinates (env : Env) (line1 line2 : string)
    (sat : satellite env) :
  all_calls_succeed env line1 line2 sat ->
  exists df,
    fst (run (_get_sat_posn env [line1; line2])) = inr df /\
    Forall2 (fun x m => exists g,
               sat_at env sat (new_t (ts_now_utc env) m) = inr g /\
               (-180 <= fst (latlon_of env g) <= 180 ->
                Qabs (x - fst (latlon_of env g)) <= 1e-6)%Q)
            (col_lat df) (range (-90) 90) /\
    Forall2 (fun x m => exists g,
               sat_at env sat (new_t (ts_now_utc env) m) = inr g /\
               (-180 <= snd (latlon_of env g) <= 180 ->
                Qabs (x - snd (latlon_of env g)) <= 1e-6)%Q)
            (col_lon df) (range (-90) 90).
Proof.
  intros (Hsat & Hc & Hg).
  exists (rows env sat (range (-90) 90)).
  rewrite (get_sat_posn_ok env line1 line2 [] sat Hsat Hc Hg).
  split; [reflexivity |].
  unfold rows. cbn [col_lat col_lon].
  revert Hg. generalize (range (-90) 90) as l.
  induction l as [|m l IH]; intros Hg; [split; constructor |].
  destruct IH as [IH1 IH2]; [intros m' Hm'; apply Hg; right; exact Hm' |].
  destruct (Hg m (or_introl eq_refl)) as [g Eg].
  cbn [map]. split; constructor; try assumption;
    exists g; (split; [exact Eg |]);
    unfold latlon_at; rewrite Eg; destruct (latlon_of env g) as [lat lon];
    cbn [fst snd]; apply Float64Facts.round_trip_close.
Qed.

Lemma X9_witness :
  all_calls_succeed demo_env demo_line1 demo_line2 tt /\
  exists df,
    fst (run (_get_sat_posn demo_env [demo_line1; demo_line2])) = inr df /\
    Forall2 (fun x m => exists g,
               sat_at demo_env tt (new_t (ts_now_utc demo_env) m) = inr g /\
               (-180 <= fst (latlon_of demo_env g) <= 180 ->
                Qabs (x - fst (latlon_of demo_env g)) <= 1e-6)%Q)
            (col_lat df) (range (-90) 90) /\
    Forall2 (fun x m => exists g,
               sat_at demo_env tt (new_t (ts_now_utc demo_env) m) = inr g /\
               (-180 <= snd (latlon_of demo_env g) <= 180 ->
                Qabs (x - snd (latlon_of demo_env g)) <= 1e-6)%Q)
            (col_lon df) (range (-90) 90).
Proof.
  split; [exact demo_all_calls_succeed |].
  exact (X9_stored_coordinates demo_env demo_line1 demo_line2 tt
           demo_all_calls_succeed).
Defined.

(* ================================================================== *)
(** ** Element lines and failed samples: what stops a run *)
(* ================================================================== *)

(** Every iteration, and so the loop, only adds to the call trace. *)
Lemma sample_trace (env : Env) (sat : satellite env) (t : utc_tuple)
    (date : Datetime.datetime) (m : Z) (p : positions) (tr : list event) :
  exists tr', snd (sample env sat t date m p tr) = tr ++ tr'.
Proof.
  unfold sample, bind, lift, emit, ret.
  destruct (Datetime.add date _) as [e | d].
  - exists []. cbn [snd]. rewrite app_nil_r. reflexivity.
  - destruct (sat_at env sat (new_t t m)) as [e | g].
    + eexists. reflexivity.
    + destruct (latlon_of env g) as [lat lon]. eexists. reflexivity.
Qed.

Lemma loop_trace (env : Env) (sat : satellite env) (t : utc_tuple)
    (date : Datetime.datetime) (l : list Z) :
  forall p tr, exists tr', snd (for_each l (sample env sat t date) p tr) = tr ++ tr'.
Proof.
  induction l as [|m l IH]; intros p tr.
  - exists []. cbn. rewrite app_nil_r. reflexivity.
  - cbn [for_each]. unfold bind.
    destruct (sample_trace env sat t date m p tr) as [tr1 E1].
    destruct (sample env sat t date m p tr) as [[e | p1] tr'].
    + exists tr1. exact E1.
    + cbn [snd] in E1. subst tr'.
      destruct (IH p1 (tr ++ tr1)) as [tr2 E2].
      exists (tr1 ++ tr2). rewrite E2, app_assoc. reflexivity.
Qed.

(** Once the constructor has returned a satellite and the clock reading is
    sound, the first sample is propagated, whatever happens afterwards. *)
Lemma get_sat_posn_starts (env : Env) (line1 line2 : string) (rest : list string)
    (sat : satellite env) :
  EarthSatellite env line1 line2 "ISS" = inr sat ->
  clock_ok (ts_now_utc env) = true ->
  exists r tr,
    run (_get_sat_posn env (line1 :: line2 :: rest))
    = (r, Construct line1 line2 :: Propagate (new_t (ts_now_utc env) (-90)) :: tr).
Proof.
  intros Hsat Hc.
  unfold run, _get_sat_posn, bind, lift, emit. cbn [index nth_error app].
  rewrite Hsat, (clock_ok_new _ Hc).
  rewrite (range_first (-90) 90) by lia.
  cbn [for_each]. unfold bind.
  destruct (date_at_spec (ts_now_utc env) (-90) Hc ltac:(lia)) as (Eadd & _ & _).
  destruct (sat_at env sat (new_t (ts_now_utc env) (-90))) as [e | g] eqn:Eg.
  - unfold sample, bind, lift, emit. rewrite Eadd, Eg.
    exists (inl e), []. reflexivity.
  - rewrite (sample_ok env sat (-90) _ _ g Hc ltac:(lia) Eg).
    match goal with
    | |- context [for_each ?l ?b ?p ?tr0] =>
        destruct (loop_trace env sat (ts_now_utc env) (date_of (ts_now_utc env))
                    l p tr0) as [tr1 E1];
        destruct (for_each l b p tr0) as [[e | p1] tr']
    end; cbn [snd] in E1; subst tr'; cbn [app].
    + eauto.
    + unfold pd_DataFrame. destruct (_ && _)%bool; eauto.
Qed.

(** After the build, [update_graph] calls neither the constructor nor the
    propagator again. *)
Lemma update_graph_trace (env : Env) (tle : list string) (r : exn + DataFrame)
    (tr : list event) :
  fst (run (_pull_tle env)) = inr tle ->
  run (_get_sat_posn env tle) = (r, tr) ->
  exists r', run (update_graph env) = (r', tr).
Proof.
  intros Hp Hb. unfold run, update_graph, bind in *.
  rewrite (pull_tle_run env _ Hp), Hb.
  destruct r as [e | df]; [eauto |].
  unfold lift, ret.
  destruct (read_pickle env "cities.pkl") as [e | c]; [eauto |].
  destruct (current_row (col_lat df)) as [e | x]; [eauto |].
  destruct (current_row (col_lon df)) as [e | y]; eauto.
Qed.

(** The outcome of [_pull_tle], once both HTTP calls have answered 200, when
    the text does not split into three parts. *)
Lemma pull_tle_refuses (env : Env) (resp : response) :
  (forall opt, exists v, config_get env "configuration" opt = inr v) ->
  (forall url cred, exists r,
     session_post env url cred = inr r /\ status_code r = 200) ->
  (forall url, session_get env url = inr resp) ->
  status_code resp = 200 ->
  List.length (split_crlf (text resp)) <> 3%nat ->
  exists msg, run (_pull_tle env) = (inl (ValueError msg), []).
Proof.
  intros Hcfg Hpost Hget Hstatus Hlen.
  unfold run, _pull_tle, bind, lift, raise, ret.
  destruct (Hcfg "username"%string) as [u ->].
  destruct (Hcfg "password"%string) as [pw ->].
  destruct (Hcfg "output"%string) as [out ->].
  match goal with
  | |- context [session_post env ?url ?cred] =>
      destruct (Hpost url cred) as (r & -> & Hr)
  end.
  rewrite Hr, Hget, Hstatus. cbn [Z.eqb Pos.eqb negb].
  destruct (split_crlf (text resp)) as [|a [|b [|c [|d l]]]];
    cbn [List.length] in *; try (eexists; reflexivity).
  exfalso. apply Hlen. reflexivity.
Qed.

(** C5, as stated, fails: the script has no check of its own, so element
    lines that the [EarthSatellite] constructor lets through are used as
    they are.  With a constructor that accepts them, as the library's
    lenient parser does, a response whose second line is cut short (16
    characters instead of 69), one whose lines carry the catalog numbers
    25544 and 25545, and one whose two lines hold no number at all, each
    lead to a figure after all 180 propagations.  Where the run does fail
    -- an empty response, the lines missing -- the failure is the unpacking
    [ValueError] of [_pull_tle]; the script has no MalformedElementSet. *)
Lemma C5_counterexample :
  (String.length truncated_line2 < 69)%nat /\
  (exists fig,
     run (update_graph (with_text demo_env truncated_text))
     = (inr fig, full_trace demo_now demo_line1 truncated_line2)) /\
  substring 2 5 demo_line1 <> substring 2 5 mismatched_line2 /\
  (exists fig,
     run (update_graph (with_text demo_env mismatched_text))
     = (inr fig, full_trace demo_now demo_line1 mismatched_line2)) /\
  (exists fig,
     run (update_graph (with_text demo_env garbage_text))
     = (inr fig, full_trace demo_now garbage_line1 garbage_line2)) /\
  List.length (filter is_propagate (full_trace demo_now demo_line1 truncated_line2))
  = 180%nat /\
  exists e,
    run (update_graph (with_text demo_env "")) = (inl e, []) /\
    exn_class e = "ValueError"%string /\
    exn_class e <> "MalformedElementSet"%string.
Proof.
  split; [vm_compute; lia |].
  split; [eexists; vm_compute; reflexivity |].
  split; [vm_compute; discriminate |].
  split; [eexists; vm_compute; reflexivity |].
  split; [eexists; vm_compute; reflexivity |].
  split; [vm_compute; reflexivity |].
  eexists. split; [vm_compute; reflexivity |].
  split; [reflexivity | discriminate].
Qed.

(** C5, amended: the script validates nothing itself.  Once the response
    has arrived, either it does not hold exactly two separators -- the
    lines are missing -- and [update_graph] fails with the unpacking
    [ValueError] before anything is constructed or propagated; or its first
    two parts go to the [EarthSatellite] constructor unchanged, and the
    constructor alone decides: if it raises, that exception is the outcome
    of [update_graph] and nothing is propagated; if it returns a satellite
    (whatever the lines were), the propagation starts at offset -90. *)
Theorem C5_constructor_decides (env : Env) (resp : response) :
  (forall opt, exists v, config_get env "configuration" opt = inr v) ->
  (forall url cred, exists r,
     session_post env url cred = inr r /\ status_code r = 200) ->
  (forall url, session_get env url = inr resp) ->
  status_code resp = 200 ->
  clock_ok (ts_now_utc env) = true ->
  (count_crlf (text resp) <> 2%nat ->
   exists msg, run (update_graph env) = (inl (ValueError msg), [])) /\
  (count_crlf (text resp) = 2%nat ->
   exists line1 line2 tail,
     split_crlf (text resp) = [line1; line2; tail] /\
     match EarthSatellite env line1 line2 "ISS" with
     | inl e => run (update_graph env) = (inl e, [Construct line1 line2])
     | inr _ =>
         exists r tr,
           run (update_graph env)
           = (r, Construct line1 line2
                 :: Propagate (new_t (ts_now_utc env) (-90)) :: tr)
     end).
Proof.
  intros Hcfg Hpost Hget Hstatus Hc.
  pose proof (split_crlf_length (text resp)) as Hlen.
  split; intros H2.
  - destruct (pull_tle_refuses env resp Hcfg Hpost Hget Hstatus) as [msg E].
    { rewrite Hlen. intros C. apply H2. injection C as C. exact C. }
    exists msg. apply update_graph_pull_fails. rewrite E. reflexivity.
  - rewrite H2 in Hlen.
    destruct (split_crlf (text resp)) as [|a [|b [|c [|d l]]]] eqn:Hsplit;
      try discriminate.
    exists a, b, c. split; [reflexivity |].
    pose proof (pull_tle_unpack env resp a b c Hcfg Hpost Hget Hstatus Hsplit) as Hp.
    assert (Hp' : fst (run (_pull_tle env)) = inr [a; b]) by (rewrite Hp; reflexivity).
    destruct (EarthSatellite env a b "ISS") as [e | sat] eqn:Hsat.
    + apply (update_graph_build_fails env _ e _ Hp').
      apply get_sat_posn_rejected. exact Hsat.
    + destruct (get_sat_posn_starts env a b [] sat Hsat Hc) as (r & tr & E).
      destruct (update_graph_trace env _ r _ Hp' E) as [r' E'].
      exists r', tr. exact E'.
Qed.

Lemma C5_witness :
  let env := with_text demo_env truncated_text in
  let resp := mkresp 200 truncated_text in
  ((forall opt, exists v, config_get env "configuration" opt = inr v) /\
   (forall url cred, exists r,
      session_post env url cred = inr r /\ status_code r = 200) /\
   (forall url, session_get env url = inr resp) /\
   status_code resp = 200 /\
   clock_ok (ts_now_utc env) = true) /\
  (count_crlf (text resp) <> 2%nat ->
   exists msg, run (update_graph env) = (inl (ValueError msg), [])) /\
  (count_crlf (text resp) = 2%nat ->
   exists line1 line2 tail,
     split_crlf (text resp) = [line1; line2; tail] /\
     match EarthSatellite env line1 line2 "ISS" with
     | inl e => run (update_graph env) = (inl e, [Construct line1 line2])
     | inr _ =>
         exists r tr,
           run (update_graph env)
           = (r, Construct line1 line2
                 :: Propagate (new_t (ts_now_utc env) (-90)) :: tr)
     end).
Proof.
  intros env resp.
  assert (H1 : forall opt, exists v, config_get env "configuration" opt = inr v)
    by (intros opt; eexists; reflexivity).
  assert (H2 : forall url cred, exists r,
             session_post env url cred = inr r /\ status_code r = 200)
    by (intros url cred; eexists; split; reflexivity).
  assert (H3 : forall url, session_get env url = inr resp)
    by (intros url; reflexivity).
  assert (H4 : status_code resp = 200) by reflexivity.
  assert (H5 : clock_ok (ts_now_utc env) = true) by reflexivity.
  split; [repeat split; assumption |].
  exact (C5_constructor_decides env resp H1 H2 H3 H4 H5).
Defined.

(** The row of an offset in a column computed from the offsets. *)
Lemma nth_error_range (lo hi m : Z) :
  lo <= m < hi -> nth_error (range lo hi) (Z.to_nat (m - lo)) = Some m.
Proof.
  intros H. unfold range.
  rewrite nth_error_map, nth_error_seq.
  destruct (Nat.ltb_spec (Z.to_nat (m - lo)) (Z.to_nat (hi - lo))) as [_ | C];
    [| lia].
  cbn [option_map Nat.add]. f_equal. lia.
Qed.

(** C6, as stated, fails: the propagator need not raise when it fails.
    Skyfield returns a position in any case and reports the failure on it;
    the loop never looks at the report.  With a propagator that fails in
    this way at the 80 samples from ten minutes after the reference
    instant on, the build returns a frame of 180 rows and [update_graph] a
    figure: the failed samples are rows of the track like the others. *)
Lemma C6_counterexample :
  reported_failures silent_failure_env tt position_message (range (-90) 90)
  = repeat None 100 ++ repeat (Some "mean motion less than 0.0"%string) 80 /\
  exists df fig,
    fst (run (_get_sat_posn silent_failure_env [demo_line1; demo_line2])) = inr df /\
    List.length (col_name df) = 180%nat /\
    List.length (col_lat df) = 180%nat /\
    List.length (col_lon df) = 180%nat /\
    List.length (col_datetime df) = 180%nat /\
    fst (run (update_graph silent_failure_env)) = inr fig /\
    fig_frame fig = df.
Proof.
  split; [vm_compute; reflexivity |].
  do 2 eexists.
  repeat (split; [vm_compute; reflexivity |]).
  vm_compute; reflexivity.
Qed.

(** C6, amended: a sample stops the build only by raising.  If
    [satellite.at] raises at any one sample of the window, the build returns
    no data frame at all -- the rows gathered so far live in a local
    variable and are dropped -- and neither does [update_graph] return a
    figure.  If it returns a position for every sample, then whatever those
    positions carry, a failure report included, the build returns the full
    track of 180 rows, and the row of each offset holds the coordinates
    computed from the position it was given for it. *)
Theorem C6_only_a_raise_stops_the_build (env : Env) (line1 line2 : string)
    (sat : satellite env) :
  EarthSatellite env line1 line2 "ISS" = inr sat ->
  (forall m e,
     In m (range (-90) 90) ->
     sat_at env sat (new_t (ts_now_utc env) m) = inl e ->
     (exists e', fst (run (_get_sat_posn env [line1; line2])) = inl e') /\
     (fst (run (_pull_tle env)) = inr [line1; line2] ->
      exists e', fst (run (update_graph env)) = inl e')) /\
  (clock_ok (ts_now_utc env) = true ->
   (forall m, In m (range (-90) 90) ->
      exists g, sat_at env sat (new_t (ts_now_utc env) m) = inr g) ->
   exists df,
     fst (run (_get_sat_posn env [line1; line2])) = inr df /\
     List.length (col_datetime df) = 180%nat /\
     forall m g,
       In m (range (-90) 90) ->
       sat_at env sat (new_t (ts_now_utc env) m) = inr g ->
       nth_error (col_lat df) (Z.to_nat (m + 90))
       = Some (Float64._dms_to_dd (Float64.dms (fst (latlon_of env g)))) /\
       nth_error (col_lon df) (Z.to_nat (m + 90))
       = Some (Float64._dms_to_dd (Float64.dms (snd (latlon_of env g))))).
Proof.
  intros Hsat. split.
  - intros m e Hm He.
    destruct (get_sat_posn_diverged env line1 line2 [] sat m e Hsat Hm He)
      as (e' & tr & E).
    split.
    + exists e'. rewrite E. reflexivity.
    + intros Hp. exists e'.
      rewrite (update_graph_build_fails env _ e' tr Hp E). reflexivity.
  - intros Hc Hg.
    exists (rows env sat (range (-90) 90)).
    rewrite (get_sat_posn_ok env line1 line2 [] sat Hsat Hc Hg).
    split; [reflexivity |].
    split; [unfold rows; cbn [col_datetime]; rewrite length_map; reflexivity |].
    intros m g Hm Eg. apply In_range in Hm.
    unfold rows. cbn [col_lat col_lon].
    rewrite !nth_error_map.
    replace (m + 90) with (m - -90) by lia.
    rewrite (nth_error_range (-90) 90 m Hm). cbn [option_map].
    unfold latlon_at. rewrite Eg.
    destruct (latlon_of env g) as [lat lon]. split; reflexivity.
Qed.

Lemma C6_witness :
  EarthSatellite silent_failure_env demo_line1 demo_line2 "ISS" = inr tt /\
  (forall m e,
     In m (range (-90) 90) ->
     sat_at silent_failure_env tt (new_t (ts_now_utc silent_failure_env) m) = inl e ->
     (exists e', fst (run (_get_sat_posn silent_failure_env [demo_line1; demo_line2]))
                 = inl e') /\
     (fst (run (_pull_tle silent_failure_env)) = inr [demo_line1; demo_line2] ->
      exists e', fst (run (update_graph silent_failure_env)) = inl e')) /\
  (clock_ok (ts_now_utc silent_failure_env) = true ->
   (forall m, In m (range (-90) 90) ->
      exists g, sat_at silent_failure_env tt
                  (new_t (ts_now_utc silent_failure_env) m) = inr g) ->
   exists df,
     fst (run (_get_sat_posn silent_failure_env [demo_line1; demo_line2])) = inr df /\
     List.length (col_datetime df) = 180%nat /\
     forall m g,
       In m (range (-90) 90) ->
       sat_at silent_failure_env tt (new_t (ts_now_utc silent_failure_env) m)
       = inr g ->
       nth_error (col_lat df) (Z.to_nat (m + 90))
       = Some (Float64._dms_to_dd
                 (Float64.dms (fst (latlon_of silent_failure_env g)))) /\
       nth_error (col_lon df) (Z.to_nat (m + 90))
       = Some (Float64._dms_to_dd
                 (Float64.dms (snd (latlon_of silent_failure_env g))))).
Proof.
  split; [reflexivity |].
  exact (C6_only_a_raise_stops_the_build silent_failure_env demo_line1 demo_line2
           tt eq_refl).
Defined.

(* ================================================================== *)
(** ** More on [update_graph] *)
(* ================================================================== *)

(** X10: the cities table is read only after the ground track has been
    computed: if [cities.pkl] cannot be read, all 180 propagations have
    been made and [update_graph] raises the exception of the read, without
    a figure. *)
Theorem X10_cities_unreadable (env : Env) (line1 line2 : string)
    (sat : satellite env) (e : exn) :
  fst (run (_pull_tle env)) = inr [line1; line2] ->
  all_calls_succeed env line1 line2 sat ->
  read_pickle env "cities.pkl" = inl e ->
  run (update_graph env) = (inl e, full_trace (ts_now_utc env) line1 line2).
Proof.
  intros Hp (Hsat & Hc & Hg) Hcities.
  unfold run, update_graph, bind, lift.
  rewrite (pull_tle_run env _ Hp).
  pose proof (get_sat_posn_ok env line1 line2 [] sat Hsat Hc Hg) as E.
  unfold run in E. rewrite E, Hcities. reflexivity.
Qed.

Lemma X10_witness :
  (fst (run (_pull_tle no_cities_env)) = inr [demo_line1; demo_line2] /\
   all_calls_succeed no_cities_env demo_line1 demo_line2 tt /\
   read_pickle no_cities_env "cities.pkl"
   = inl (Raise "FileNotFoundError" ["cities.pkl"%string])) /\
  run (update_graph no_cities_env)
  = (inl (Raise "FileNotFoundError" ["cities.pkl"%string]),
     full_trace (ts_now_utc no_cities_env) demo_line1 demo_line2).
Proof.
  assert (H1 : fst (run (_pull_tle no_cities_env)) = inr [demo_line1; demo_line2])
    by (vm_compute; reflexivity).
  assert (H2 : all_calls_succeed no_cities_env demo_line1 demo_line2 tt)
    by exact demo_all_calls_succeed.
  assert (H3 : read_pickle no_cities_env "cities.pkl"
               = inl (Raise "FileNotFoundError" ["cities.pkl"%string]))
    by reflexivity.
  split; [repeat split; try assumption; apply H2 |].
  exact (X10_cities_unreadable no_cities_env demo_line1 demo_line2 tt _ H1 H2 H3).
Defined.
